(** * Event ticket inventory: state transitions and reconciliation

    A shallow embedding of [streamlit_pg_08.py]: the normalisation applied by
    [load_all_data], the sidebar reset, the manual-sale and reverse-sale
    handlers of the Sales tab, and the dashboard summary with [custom_sort].

    The [tickets] DataFrame is a list of rows (its RangeIndex is the list
    position).  A NULL / NaN cell is [None].  The [Seq] column holds any
    finite number (a rational, [Qc]); [Admit], [Visitor_Seats] and the
    computed columns are int64 columns: they hold integers ([Z]) and their
    sums, products and differences wrap around as 64-bit arithmetic does. *)

From Stdlib Require Import Ascii QArith Qcanon.
From stdpp Require Import base numbers option list strings sorting.

Local Open Scope string_scope.
Local Open Scope Z_scope.

(** ** Data model *)

(** One row of the [tickets] table once [load_all_data] has normalised it.
    [Type_] and [Category] are not touched by the normalisation, so they can
    still be NULL; [Seq] is numeric or NaN; [Timestamp] is a string or NULL. *)
Record Ticket := mkTicket {
  TicketID : string;
  Type_ : option string;
  Category : option string;
  Admit : Z;
  Seq : option Qc;
  Sold : bool;
  Customer : string;
  Visited : bool;
  Visitor_Seats : Z;
  Timestamp : option string
}.

Global Instance Ticket_eq_dec : EqDecision Ticket.
Proof. solve_decision. Defined.

(** Writing one cell of a row: [tickets.at[idx, col] = v] rewrites column
    [col] of the row and keeps every other column. *)
Definition set_Sold (v : bool) (t : Ticket) : Ticket :=
  mkTicket (TicketID t) (Type_ t) (Category t) (Admit t) (Seq t)
           v (Customer t) (Visited t) (Visitor_Seats t) (Timestamp t).
Definition set_Customer (v : string) (t : Ticket) : Ticket :=
  mkTicket (TicketID t) (Type_ t) (Category t) (Admit t) (Seq t)
           (Sold t) v (Visited t) (Visitor_Seats t) (Timestamp t).
Definition set_Visited (v : bool) (t : Ticket) : Ticket :=
  mkTicket (TicketID t) (Type_ t) (Category t) (Admit t) (Seq t)
           (Sold t) (Customer t) v (Visitor_Seats t) (Timestamp t).
Definition set_Visitor_Seats (v : Z) (t : Ticket) : Ticket :=
  mkTicket (TicketID t) (Type_ t) (Category t) (Admit t) (Seq t)
           (Sold t) (Customer t) (Visited t) v (Timestamp t).
Definition set_Timestamp (v : option string) (t : Ticket) : Ticket :=
  mkTicket (TicketID t) (Type_ t) (Category t) (Admit t) (Seq t)
           (Sold t) (Customer t) (Visited t) (Visitor_Seats t) v.

(** [tickets.at[idx, col] = v] on the whole frame. *)
Definition at_set (idx : nat) (f : Ticket → Ticket) (tickets : list Ticket)
  : list Ticket := alter f idx tickets.

(** Invariants of the data model. *)
Definition I1 (t : Ticket) : Prop :=
  Sold t = false →
  Customer t = "" ∧ Visited t = false ∧ Visitor_Seats t = 0 ∧ Timestamp t = None.
Definition I2 (tickets : list Ticket) : Prop := NoDup (TicketID <$> tickets).
Definition I3 (t : Ticket) : Prop := 1 ≤ Admit t.

(** ** Load normalisation ([load_all_data], lines 46-60) *)

(** A cell handed to [pd.to_numeric(..., errors="coerce")], classified the
    way that call classifies it: NULL, a value it reads as the number [z],
    or a value it cannot read as a number. *)
Inductive RawCell (N : Type) := RNull | RNumber (z : N) | RNonNumeric.

Arguments RNull {N}.
Arguments RNumber {N} z.
Arguments RNonNumeric {N}.

Record RawTicket := mkRaw {
  rTicketID : string;              (* the text [astype(str)] produces *)
  rType : option string;
  rCategory : option string;
  rAdmit : RawCell Z;
  rSeq : RawCell Qc;
  rSold : option bool;
  rCustomer : option string;
  rVisited : option bool;
  rVisitor_Seats : option Z;
  rTimestamp : option string
}.

(** [pd.to_numeric(col, errors="coerce")]: NaN for what is not a number. *)
Definition to_numeric {N} (c : RawCell N) : option N :=
  match c with
  | RNumber z => Some z
  | RNull | RNonNumeric => None
  end.

(** [col.fillna(v)]. *)
Definition fillna {A} (v : A) (c : option A) : A := default v c.

Fixpoint pad_zeros (n : nat) (s : string) : string :=
  match n with
  | O => s
  | S n' => "0" +:+ pad_zeros n' s
  end.

(** The number of characters of a text held as its UTF-8 bytes: every byte
    but the continuation bytes (10xxxxxx) begins a character. *)
Definition continuation_byte (a : ascii) : bool :=
  ((128 <=? N_of_ascii a) && (N_of_ascii a <? 192))%N.

Fixpoint char_length (s : string) : nat :=
  match s with
  | EmptyString => O
  | String a s' =>
      ((if continuation_byte a then 0 else 1) + char_length s')%nat
  end.

Definition is_sign (a : ascii) : bool :=
  bool_decide (a = "+"%char) || bool_decide (a = "-"%char).

(** [col.str.zfill(width)]: a text of [width] characters or more is kept;
    a shorter one is filled up to [width] characters with zeros, which go
    behind a leading sign ([+] or [-]) and in front of the text otherwise. *)
Definition zfill (width : nat) (s : string) : string :=
  let fill := (width - char_length s)%nat in
  match s with
  | String a rest =>
      if is_sign a then String a (pad_zeros fill rest) else pad_zeros fill s
  | EmptyString => pad_zeros fill s
  end.

Definition normalize (r : RawTicket) : Ticket := {|
  Visitor_Seats := fillna 0 (rVisitor_Seats r);
  Sold := fillna false (rSold r);
  Visited := fillna false (rVisited r);
  Customer := fillna "" (rCustomer r);
  Admit := fillna 1 (to_numeric (rAdmit r));
  Seq := to_numeric (rSeq r);
  TicketID := zfill 4 (rTicketID r);
  Type_ := rType r;
  Category := rCategory r;
  Timestamp := rTimestamp r
|}.

(** The [tickets] half of [load_all_data], given the rows the query returns. *)
Definition load_all_data (rows : list RawTicket) : list Ticket :=
  normalize <$> rows.

(** ** State transitions *)

(** What a handler does besides writing: the message it shows when it writes
    nothing.  [NotAnOption] stands for a value the select box does not list
    (the form cannot submit it), [IndexError] for [...index[...][0]] on an
    empty selection. *)
Inductive Notice :=
  | IncorrectAdminPassword     (* st.error("Incorrect Admin Password") *)
  | NoAvailableTickets         (* st.info("No available tickets in this category.") *)
  | NoSoldTickets              (* st.info("No sold tickets to reverse in this category.") *)
  | NotAnOption
  | IndexError.

(** [Saved ts]: the handler reached [save_tickets_df(tickets)] with the
    frame [ts].  [Refused n]: it wrote nothing and the frame is untouched. *)
Inductive Outcome :=
  | Saved (tickets : list Ticket)
  | Refused (n : Notice).

(** The frame the next run sees. *)
Definition tickets_after (tickets : list Ticket) (o : Outcome) : list Ticket :=
  match o with
  | Saved tickets' => tickets'
  | Refused _ => tickets
  end.

(** *** Reset Database (lines 109-121) *)

(** The five whole-column assignments [tickets[col] = v], seen on one row. *)
Definition reset_row (t : Ticket) : Ticket :=
  set_Timestamp None
    (set_Visitor_Seats 0 (set_Customer "" (set_Visited false (set_Sold false t)))).

Definition reset_database (tickets : list Ticket) (admin_pass_input : string)
  : Outcome :=
  if decide (admin_pass_input = "admin123")
  then Saved (reset_row <$> tickets)
  else Refused IncorrectAdminPassword.

(** *** Sales tab *)

(** [tickets[col] == v] on one cell: a NULL on either side compares false. *)
Definition cell_eq (c v : option string) : bool :=
  match c, v with
  | Some x, Some y => bool_decide (x = y)
  | _, _ => false
  end.

(** [tickets.index[tickets["TicketID"] == tid][0]]; [None] is the
    IndexError of [[0]] on an empty index. *)
Definition first_index (tickets : list Ticket) (tid : string) : option nat :=
  fst <$> list_find (λ t, TicketID t = tid) tickets.

(** The options of the "Ticket ID" select box of the manual-sale form. *)
Definition avail (tickets : list Ticket) (s_type : string) (s_cat : option string)
  : list string :=
  TicketID <$>
    filter (λ t, cell_eq (Type_ t) (Some s_type) && cell_eq (Category t) s_cat
                 && negb (Sold t)) tickets.

(** The body of [if confirm:] in the manual-sale form (lines 213-218). *)
Definition confirm_sale (tickets : list Ticket) (tid cust now : string)
  : option (list Ticket) :=
  idx ← first_index tickets tid;
  let tickets := at_set idx (set_Sold true) tickets in
  let tickets := at_set idx (set_Customer cust) tickets in
  let tickets := at_set idx (set_Timestamp (Some now)) tickets in
  Some tickets.

(** Manual sale (lines 194-222) with the form submitted: [s_type] and [s_cat]
    are the values of the Type radio and the Category select box ([None] when
    the box has no option), [tid] the chosen ticket, [cust] the customer
    name, [now] the text of [pd.Timestamp.now()]. *)
Definition manual_sale (tickets : list Ticket) (s_type : string)
    (s_cat : option string) (tid cust now : string) : Outcome :=
  match avail tickets s_type s_cat with
  | [] => Refused NoAvailableTickets
  | options =>
      if decide (tid ∈ options) then
        match confirm_sale tickets tid cust now with
        | Some tickets' => Saved tickets'
        | None => Refused IndexError
        end
      else Refused NotAnOption
  end.

(** The options of the "Ticket ID to reverse" select box. *)
Definition sold_tickets (tickets : list Ticket) (r_type : string)
    (r_cat : option string) : list string :=
  TicketID <$>
    filter (λ t, cell_eq (Type_ t) (Some r_type) && cell_eq (Category t) r_cat
                 && Sold t) tickets.

(** The body of [if confirm:] in the reverse-sale form (lines 244-251). *)
Definition confirm_reverse (tickets : list Ticket) (tid : string)
  : option (list Ticket) :=
  idx ← first_index tickets tid;
  let tickets := at_set idx (set_Sold false) tickets in
  let tickets := at_set idx (set_Customer "") tickets in
  let tickets := at_set idx (set_Visited false) tickets in
  let tickets := at_set idx (set_Visitor_Seats 0) tickets in
  let tickets := at_set idx (set_Timestamp None) tickets in
  Some tickets.

(** Reverse sale (lines 225-255) with the form submitted. *)
Definition reverse_sale (tickets : list Ticket) (r_type : string)
    (r_cat : option string) (tid : string) : Outcome :=
  match sold_tickets tickets r_type r_cat with
  | [] => Refused NoSoldTickets
  | options =>
      if decide (tid ∈ options) then
        match confirm_reverse tickets tid with
        | Some tickets' => Saved tickets'
        | None => Refused IndexError
        end
      else Refused NotAnOption
  end.

(** *** Visitor check-in *)

(** The rejections the specification names for a check-in. *)
Inductive Rejection := NotFound | NotSold | ValidationError.

(** Modelled from the spec: the check-in handler of the Visitors tab is
    missing from the source file, which stops at the first line of that tab.
    Specification 4.2: [CheckIn(ticketID, seatsUsed)] fails with [NotFound]
    if the ticket is absent, fails with [NotSold] if it is not sold, and on
    success sets [Visited=true] and [Visitor_Seats=seatsUsed]; re-entry on a
    visited ticket is allowed.  Specification 7 and invariant I4: an
    attempted invariant violation, such as a negative seat count, is rejected
    with [ValidationError], and a rejection leaves the collection unchanged.
    The ticket is looked up the way the handlers of the Sales tab do it
    (first row carrying the identifier). *)
Definition CheckIn (tickets : list Ticket) (ticketID : string) (seatsUsed : Z)
  : Rejection + list Ticket :=
  match list_find (λ t, TicketID t = ticketID) tickets with
  | None => inl NotFound
  | Some (idx, t) =>
      if Sold t then
        if bool_decide (seatsUsed < 0) then inl ValidationError
        else
          inr (at_set idx (set_Visitor_Seats seatsUsed)
                 (at_set idx (set_Visited true) tickets))
      else inl NotSold
  end.

(** ** Reconciliation (Dashboard tab, lines 134-170) *)

Definition Zsum (l : list Z) : Z := foldr Z.add 0 l.

(** The value an int64 cell holds for the integer [z]: [z] reduced modulo
    2^64 into the range from -2^63 to 2^63 - 1. *)
Definition wrap64 (z : Z) : Z := (z + 2 ^ 63) mod 2 ^ 64 - 2 ^ 63.

(** The key of [df.groupby(["Seq", "Type", "Category", "Admit"])]. *)
Record GroupKey := mkKey {
  kSeq : Qc;
  kType : string;
  kCategory : string;
  kAdmit : Z
}.

Global Instance GroupKey_eq_dec : EqDecision GroupKey.
Proof. solve_decision. Defined.

(** The key of a row; [None] when a key column is NULL / NaN, in which case
    [groupby] (whose [dropna] defaults to [True]) leaves the row out. *)
Definition group_key (t : Ticket) : option GroupKey :=
  s ← Seq t; ty ← Type_ t; c ← Category t; Some (mkKey s ty c (Admit t)).

(** [groupby] returns the groups in increasing key order, the key columns
    compared from left to right. *)
Definition key_leb (a b : GroupKey) : bool :=
  if bool_decide (kSeq a = kSeq b) then
    if bool_decide (kType a = kType b) then
      if bool_decide (kCategory a = kCategory b) then
        bool_decide (kAdmit a ≤ kAdmit b)
      else String.ltb (kCategory a) (kCategory b)
    else String.ltb (kType a) (kType b)
  else bool_decide (kSeq a < kSeq b)%Qc.

Definition group_keys (df : list Ticket) : list GroupKey :=
  merge_sort (λ a b, key_leb a b) (remove_dups (omap group_key df)).

(** The rows of one group. *)
Definition group_of (df : list Ticket) (k : GroupKey) : list Ticket :=
  filter (λ t, group_key t = Some k) df.

(** A row of [summary], in [column_order]. *)
Record SummaryRow := mkRow {
  row_Seq : Qc;
  row_Type : string;
  row_Category : string;
  row_Admit : Z;
  Total_Tickets : Z;
  Tickets_Sold : Z;
  Total_Seats : Z;
  Seats_sold : Z;
  Total_Visitors : Z;
  Balance_Tickets : Z;
  Balance_Seats : Z;
  Balance_Visitors : Z
}.

Definition row_key (r : SummaryRow) : GroupKey :=
  mkKey (row_Seq r) (row_Type r) (row_Category r) (row_Admit r).

(** The three aggregates of [.agg(...)] over one group:
    [("TicketID", "count")], [("Sold", "sum")], [("Visitor_Seats", "sum")].
    The two counts are at most the number of rows of the frame, which no
    int64 fails to hold; the sum of the int64 column [Visitor_Seats] wraps
    around. *)
Definition agg_count (g : list Ticket) : Z := Z.of_nat (length g).
Definition agg_sold (g : list Ticket) : Z :=
  Zsum ((λ t, if Sold t then 1 else 0) <$> g).
Definition agg_visitors (g : list Ticket) : Z :=
  wrap64 (Zsum (Visitor_Seats <$> g)).

(** One row of the frame after [reset_index()] and the five derived columns
    (lines 146-150), computed on int64 columns: the products with [Admit]
    and the differences built on them wrap around ([Balance_Tickets], a
    difference of two counts, cannot). *)
Definition summary_row (k : GroupKey) (g : list Ticket) : SummaryRow :=
  let total_tickets := agg_count g in
  let tickets_sold := agg_sold g in
  let total_visitors := agg_visitors g in
  let total_seats := wrap64 (total_tickets * kAdmit k) in
  let seats_sold := wrap64 (tickets_sold * kAdmit k) in
  {| row_Seq := kSeq k; row_Type := kType k; row_Category := kCategory k;
     row_Admit := kAdmit k;
     Total_Tickets := total_tickets;
     Tickets_Sold := tickets_sold;
     Total_Seats := total_seats;
     Seats_sold := seats_sold;
     Total_Visitors := total_visitors;
     Balance_Tickets := total_tickets - tickets_sold;
     Balance_Seats := wrap64 (total_seats - seats_sold);
     Balance_Visitors := wrap64 (seats_sold - total_visitors) |}.

Definition grouped (df : list Ticket) : list SummaryRow :=
  (λ k, summary_row k (group_of df k)) <$> group_keys df.

(** [int(x)] on a finite number: [x] without its fractional part, that
    is, rounded toward zero. *)
Definition py_int (x : Qc) : Z := Z.quot (Qnum x) (Z.pos (Qden x)).

(** The key of [custom_sort]: [10 if x in [0, "0", None] else int(x)].  The
    [Seq] column of the summary is numeric, so the membership test is
    [x == 0]. *)
Definition sort_key (x : Qc) : Z :=
  if bool_decide (x = Qc_of_Z 0) then 10 else py_int x.

Definition sort_key_le (a b : SummaryRow) : Prop :=
  sort_key (row_Seq a) ≤ sort_key (row_Seq b).

Global Instance sort_key_le_dec a b : Decision (sort_key_le a b).
Proof. unfold sort_key_le. apply _. Defined.

(** [custom_sort] (lines 78-89) on a frame that has a [Seq] column:
    [sort_values("sort_key")] puts the rows in increasing key order.  The
    order it leaves among rows of equal key is not fixed by pandas; here it
    is that of a merge sort, and the results below use only that the output
    is a sorted rearrangement of the input whose order is decided by the
    column of keys alone. *)
Definition custom_sort (df : list SummaryRow) : list SummaryRow :=
  merge_sort sort_key_le df.

(** [summary] as it stands at line 167. *)
Definition summary (tickets : list Ticket) : list SummaryRow :=
  custom_sort (grouped tickets).

(** The grand-total row (line 168):
    [summary.select_dtypes(include="number").sum()] sums the number columns
    of the summary ([Seq] is then overwritten with the label "Total"; [Type]
    and [Category], text columns, stay empty).  [Admit], the two counts and
    the columns computed from them are number columns in every case;
    [Total_Visitors] and [Balance_Visitors] are number columns because
    [Visitor_Seats] is one in this model (a table that held it as text would
    leave these two cells of the total row empty).  The sums are int64 sums
    and wrap around, but for the sums of counts, which stay below the number
    of rows. *)
Record TotalsRow := mkTotals {
  tot_Admit : Z;
  tot_Total_Tickets : Z;
  tot_Tickets_Sold : Z;
  tot_Total_Seats : Z;
  tot_Seats_sold : Z;
  tot_Total_Visitors : Z;
  tot_Balance_Tickets : Z;
  tot_Balance_Seats : Z;
  tot_Balance_Visitors : Z
}.

Definition totals (rows : list SummaryRow) : TotalsRow := {|
  tot_Admit := wrap64 (Zsum (row_Admit <$> rows));
  tot_Total_Tickets := Zsum (Total_Tickets <$> rows);
  tot_Tickets_Sold := Zsum (Tickets_Sold <$> rows);
  tot_Total_Seats := wrap64 (Zsum (Total_Seats <$> rows));
  tot_Seats_sold := wrap64 (Zsum (Seats_sold <$> rows));
  tot_Total_Visitors := wrap64 (Zsum (Total_Visitors <$> rows));
  tot_Balance_Tickets := Zsum (Balance_Tickets <$> rows);
  tot_Balance_Seats := wrap64 (Zsum (Balance_Seats <$> rows));
  tot_Balance_Visitors := wrap64 (Zsum (Balance_Visitors <$> rows))
|}.

Inductive FinalRow :=
  | GroupRow (r : SummaryRow)
  | TotalRow (t : TotalsRow).

(** [summary_final]: the sorted group rows, then the total row. *)
Definition summary_final (tickets : list Ticket) : list FinalRow :=
  let rows := summary tickets in
  (GroupRow <$> rows) ++ [TotalRow (totals rows)].

(** The group rows of a final frame. *)
Definition group_rows (final : list FinalRow) : list SummaryRow :=
  omap (λ r, match r with GroupRow g => Some g | TotalRow _ => None end) final.

(** ** Persistence ([save_tickets_df], lines 62-65) *)

(** The row [to_sql] writes for a row of the frame: every cell as it
    stands, a NaN as NULL. *)
Definition stored (t : Ticket) : RawTicket := {|
  rTicketID := TicketID t;
  rType := Type_ t;
  rCategory := Category t;
  rAdmit := RNumber (Admit t);
  rSeq := match Seq t with Some q => RNumber q | None => RNull end;
  rSold := Some (Sold t);
  rCustomer := Some (Customer t);
  rVisited := Some (Visited t);
  rVisitor_Seats := Some (Visitor_Seats t);
  rTimestamp := Timestamp t
|}.

(** [save_tickets_df]: [to_sql(..., if_exists="replace")] replaces the whole
    table by the rows of the frame (and the cache is cleared, so that the
    next run reads the table again). *)
Definition save_tickets_df (tickets_df : list Ticket) : list RawTicket :=
  stored <$> tickets_df.

(** ** Recent sales history (lines 260-274) *)

(** The order of [sort_values("Timestamp", ascending=False)]: later text
    first, a missing timestamp after every present one. *)
Definition newer_first (a b : Ticket) : Prop :=
  match Timestamp a, Timestamp b with
  | Some x, Some y => String.le y x
  | Some _, None => True
  | None, Some _ => False
  | None, None => True
  end.

Global Instance newer_first_dec a b : Decision (newer_first a b).
Proof. unfold newer_first. destruct (Timestamp a), (Timestamp b); apply _. Defined.

(** [recent_sales]: the sold rows, latest first. *)
Definition recent_sales (tickets : list Ticket) : list Ticket :=
  merge_sort newer_first (filter (λ t, Sold t = true) tickets).

(** A row of the displayed table, with the columns
    [["Sno", "TicketID", "Category", "Customer", "Timestamp"]]. *)
Record SalesRow := mkSale {
  Sno : Z;
  sale_TicketID : string;
  sale_Category : option string;
  sale_Customer : string;
  sale_Timestamp : option string
}.

(** The right column of the Sales tab: the table with [Sno] running over
    [range(1, len(recent_sales) + 1)], or [None] for the
    "No sales recorded yet." notice when no row is sold. *)
Definition sales_history (tickets : list Ticket) : option (list SalesRow) :=
  match recent_sales tickets with
  | [] => None
  | recent =>
      Some (imap (λ i t, mkSale (Z.of_nat i + 1) (TicketID t) (Category t)
                           (Customer t) (Timestamp t)) recent)
  end.

(** ** Notions used in the statements *)

(** The unsold baseline of the five mutable columns. *)
Definition baseline (t : Ticket) : Prop :=
  Sold t = false ∧ Customer t = "" ∧ Visited t = false ∧
  Visitor_Seats t = 0 ∧ Timestamp t = None.

(** The columns no operation writes. *)
Definition same_inventory (t t' : Ticket) : Prop :=
  TicketID t' = TicketID t ∧ Type_ t' = Type_ t ∧ Category t' = Category t ∧
  Admit t' = Admit t ∧ Seq t' = Seq t.

(** What the three cell writes of a sale, and the five of a reversal, do to
    the row they hit. *)
Definition sell_row (cust now : string) (t : Ticket) : Ticket :=
  set_Timestamp (Some now) (set_Customer cust (set_Sold true t)).
Definition reverse_row (t : Ticket) : Ticket :=
  set_Timestamp None
    (set_Visitor_Seats 0 (set_Visited false (set_Customer "" (set_Sold false t)))).
Definition checkin_row (seatsUsed : Z) (t : Ticket) : Ticket :=
  set_Visitor_Seats seatsUsed (set_Visited true t).

(** The frame after a check-in attempt. *)
Definition after_checkin (tickets : list Ticket) (r : Rejection + list Ticket)
  : list Ticket :=
  match r with
  | inr tickets' => tickets'
  | inl _ => tickets
  end.

(** Row [later] stands below row [earlier] wherever the two occur. *)
Definition appears_after (rows : list SummaryRow) (later earlier : SummaryRow)
  : Prop :=
  ∀ i j, rows !! i = Some later → rows !! j = Some earlier → (j < i)%nat.

(** The inventory of the specification's scenarios: two unsold Public/GA
    tickets admitting two seats each. *)
Definition unsold_ticket (id : string) (seq : option Z) : Ticket :=
  mkTicket id (Some "Public") (Some "GA") 2 (Qc_of_Z <$> seq)
           false "" false 0 None.
Definition scenario_inventory : list Ticket :=
  [unsold_ticket "0001" (Some 1); unsold_ticket "0002" (Some 1)].

(** The tickets a summary row stands for: those whose four key columns
    hold the row's Seq, Type, Category and Admit. *)
Definition counted_in (r : SummaryRow) (t : Ticket) : Prop :=
  Seq t = Some (row_Seq r) ∧ Type_ t = Some (row_Type r) ∧
  Category t = Some (row_Category r) ∧ Admit t = row_Admit r.

Global Instance counted_in_dec r t : Decision (counted_in r t).
Proof. unfold counted_in. apply _. Defined.

(** The integers an int64 cell can hold. *)
Definition in_int64 (z : Z) : Prop := - 2 ^ 63 ≤ z < 2 ^ 63.

(** Two integers that differ by a multiple of 2^64: they are held by the
    same int64 cell. *)
Definition eqm64 (x y : Z) : Prop := x mod 2 ^ 64 = y mod 2 ^ 64.

(** The per-group equations of a summary row as the int64 columns satisfy
    them: the two counts and their difference are exact, the sum of the
    visitor seats, the products with Admit and the differences built on
    them are taken in 64-bit wrap-around arithmetic. *)
Definition group_equations (tickets : list Ticket) (r : SummaryRow) : Prop :=
  let g := filter (counted_in r) tickets in
  g ≠ [] ∧
  Total_Tickets r = Z.of_nat (length g) ∧
  Tickets_Sold r = Z.of_nat (length (filter (λ t, Sold t = true) g)) ∧
  Total_Visitors r = wrap64 (Zsum (Visitor_Seats <$> g)) ∧
  Total_Seats r = wrap64 (Total_Tickets r * row_Admit r) ∧
  Seats_sold r = wrap64 (Tickets_Sold r * row_Admit r) ∧
  Balance_Tickets r = Total_Tickets r - Tickets_Sold r ∧
  Balance_Seats r = wrap64 (Total_Seats r - Seats_sold r) ∧
  Balance_Visitors r = wrap64 (Seats_sold r - Total_Visitors r).



(** The summary row of a group of [n] unsold Public/GA tickets admitting two
    seats each. *)
Definition unsold_row (seq n : Z) : SummaryRow :=
  mkRow (Qc_of_Z seq) "Public" "GA" 2 n 0 (n * 2) 0 0 n (n * 2) 0.

(** A row as the query returns it, with the given Admit and Seq cells. *)
Definition raw_row (id : string) (adm seq : RawCell Z) : RawTicket :=
  mkRaw id (Some "Public") (Some "GA") adm
        match seq with
        | RNumber z => RNumber (Qc_of_Z z)
        | RNull => RNull
        | RNonNumeric => RNonNumeric
        end
        None None None None None.

(** The text does not begin with a sign. *)
Definition unsigned (s : string) : Prop :=
  match s with
  | String a _ => is_sign a = false
  | EmptyString => True
  end.

(** The text begins neither with the character 0 nor with a sign. *)
Definition plain_start (s : string) : Prop :=
  match s with
  | String a _ => a ≠ "0"%char ∧ is_sign a = false
  | EmptyString => True
  end.

(** A row all of whose key columns are present: the rows [groupby] keeps. *)
Abbreviation keyed t := (is_Some (group_key t)).

(** The order of [custom_sort], read on the keys of the groups. *)
Definition key_sort_le (a b : GroupKey) : Prop :=
  sort_key (kSeq a) ≤ sort_key (kSeq b).

Global Instance key_sort_le_dec a b : Decision (key_sort_le a b).
Proof. unfold key_sort_le. apply _. Defined.

(** The keys of the groups in the order the dashboard shows them. *)
Definition display_keys (df : list Ticket) : list GroupKey :=
  merge_sort key_sort_le (group_keys df).

(** What does not depend on sales and visits in a summary: the keys of the
    rows, in order, with their Total_Tickets and Total_Seats. *)
Definition layout (tickets : list Ticket) : list (GroupKey * Z * Z) :=
  (λ r, (row_key r, Total_Tickets r, Total_Seats r)) <$> summary tickets.



(** ** Cell writes *)

Section cell_writes.
Implicit Types (t : Ticket) (tickets : list Ticket).

Lemma sell_row_inventory cust now t : same_inventory t (sell_row cust now t).
Proof. by repeat split. Qed.

Lemma reverse_row_inventory t : same_inventory t (reverse_row t).
Proof. by repeat split. Qed.

Lemma reverse_row_baseline t : baseline (reverse_row t).
Proof. by repeat split. Qed.

Lemma reset_row_baseline t : baseline (reset_row t).
Proof. by repeat split. Qed.

Lemma baseline_I1 t : baseline t → I1 t.
Proof. by intros [_ ?] _. Qed.

Lemma sold_I1 t : Sold t = true → I1 t.
Proof. intros Hs Hn. congruence. Qed.

(** On a row at the baseline, a sale followed by a reversal is the
    identity. *)
Lemma reverse_sell_row cust now t :
  baseline t → reverse_row (sell_row cust now t) = t.
Proof.
  destruct t; unfold baseline, reverse_row, sell_row; simpl.
  intros (-> & -> & -> & -> & ->). reflexivity.
Qed.

(** Two writes to the same row are one write of the composed change. *)
Lemma at_set_twice f g idx tickets :
  at_set idx f (at_set idx g tickets) = at_set idx (λ t, f (g t)) tickets.
Proof.
  unfold at_set. apply list_eq. intros i.
  destruct (decide (idx = i)) as [->|Hne].
  - rewrite !list_lookup_alter_eq. by destruct (tickets !! i).
  - by rewrite !list_lookup_alter_ne.
Qed.

Lemma confirm_sale_alter tickets tid cust now :
  confirm_sale tickets tid cust now =
  (λ idx, alter (sell_row cust now) idx tickets) <$> first_index tickets tid.
Proof.
  unfold confirm_sale. destruct (first_index tickets tid) as [idx|]; simpl;
    [|done].
  by rewrite !at_set_twice.
Qed.

Lemma confirm_reverse_alter tickets tid :
  confirm_reverse tickets tid =
  (λ idx, alter reverse_row idx tickets) <$> first_index tickets tid.
Proof.
  unfold confirm_reverse. destruct (first_index tickets tid) as [idx|]; simpl;
    [|done].
  by rewrite !at_set_twice.
Qed.

Lemma first_index_Some tickets tid idx :
  first_index tickets tid = Some idx →
  ∃ t, tickets !! idx = Some t ∧ TicketID t = tid.
Proof.
  unfold first_index. destruct (list_find _ tickets) as [[i t]|] eqn:Hf; [|done].
  intros [= <-]. apply list_find_Some in Hf as (? & ? & _). eauto.
Qed.

(** A write that keeps the identifier keeps the identifier column. *)
Lemma alter_TicketID f idx tickets :
  (∀ t, TicketID (f t) = TicketID t) →
  TicketID <$> alter f idx tickets = TicketID <$> tickets.
Proof.
  intros Hf. apply list_eq. intros i. rewrite !list_lookup_fmap.
  destruct (decide (idx = i)) as [->|Hne].
  - rewrite list_lookup_alter_eq. destruct (tickets !! i); simpl; [|done].
    by rewrite Hf.
  - by rewrite list_lookup_alter_ne.
Qed.

(** Under I2 an identifier names one position and one row. *)
Lemma I2_same_index tickets i j t t' :
  I2 tickets → tickets !! i = Some t → tickets !! j = Some t' →
  TicketID t = TicketID t' → i = j.
Proof.
  intros Hu Hi Hj Hid. apply (NoDup_lookup _ i j (TicketID t) Hu).
  - by rewrite list_lookup_fmap, Hi.
  - by rewrite list_lookup_fmap, Hj, Hid.
Qed.

Lemma I2_same_row tickets t t' :
  I2 tickets → t ∈ tickets → t' ∈ tickets → TicketID t = TicketID t' → t = t'.
Proof.
  intros Hu [i Hi]%list_elem_of_lookup [j Hj]%list_elem_of_lookup Hid.
  assert (i = j) as -> by eauto using I2_same_index. congruence.
Qed.

Lemma I2_first_index tickets idx t :
  I2 tickets → tickets !! idx = Some t →
  first_index tickets (TicketID t) = Some idx.
Proof.
  intros Hu Hi. unfold first_index.
  destruct (list_find (λ t', TicketID t' = TicketID t) tickets)
    as [[j t']|] eqn:Hf; simpl.
  - apply list_find_Some in Hf as (Hj & Hid & _).
    f_equal. symmetry. eauto using I2_same_index.
  - apply list_find_None in Hf.
    by apply (Forall_lookup_1 _ _ _ _ Hf) in Hi.
Qed.
End cell_writes.

(** ** The handlers of the Sales tab *)

Section sales_handlers.
Implicit Types (t : Ticket) (tickets : list Ticket).

Lemma avail_elem tickets s_type s_cat tid :
  tid ∈ avail tickets s_type s_cat ↔
  ∃ t, t ∈ tickets ∧ TicketID t = tid ∧ Type_ t = Some s_type ∧
       (∃ c, Category t = Some c ∧ s_cat = Some c) ∧ Sold t = false.
Proof.
  unfold avail. rewrite list_elem_of_fmap. split.
  - intros (t & -> & [Hp Hin]%list_elem_of_filter). exists t.
    apply andb_True in Hp as [[Hty Hc]%andb_True Hs].
    unfold cell_eq in *.
    destruct (Type_ t) as [ty|], (Category t) as [c|], s_cat as [c'|]; try done.
    apply bool_decide_unpack in Hty as ->. apply bool_decide_unpack in Hc as ->.
    destruct (Sold t); naive_solver.
  - intros (t & Hin & <- & Hty & (c & Hc & ->) & Hs). exists t. split; [done|].
    apply list_elem_of_filter. split; [|done].
    rewrite Hty, Hc, Hs. simpl. by rewrite !bool_decide_eq_true_2.
Qed.

Lemma sold_tickets_elem tickets r_type r_cat tid :
  tid ∈ sold_tickets tickets r_type r_cat ↔
  ∃ t, t ∈ tickets ∧ TicketID t = tid ∧ Type_ t = Some r_type ∧
       (∃ c, Category t = Some c ∧ r_cat = Some c) ∧ Sold t = true.
Proof.
  unfold sold_tickets. rewrite list_elem_of_fmap. split.
  - intros (t & -> & [Hp Hin]%list_elem_of_filter). exists t.
    apply andb_True in Hp as [[Hty Hc]%andb_True Hs].
    unfold cell_eq in *.
    destruct (Type_ t) as [ty|], (Category t) as [c|], r_cat as [c'|]; try done.
    apply bool_decide_unpack in Hty as ->. apply bool_decide_unpack in Hc as ->.
    destruct (Sold t); naive_solver.
  - intros (t & Hin & <- & Hty & (c & Hc & ->) & Hs). exists t. split; [done|].
    apply list_elem_of_filter. split; [|done].
    rewrite Hty, Hc, Hs. simpl. by rewrite !bool_decide_eq_true_2.
Qed.

(** The handler, by cases on whether the select box lists [tid]. *)
Lemma manual_sale_cases tickets s_type s_cat tid cust now :
  manual_sale tickets s_type s_cat tid cust now =
  if decide (tid ∈ avail tickets s_type s_cat) then
    match first_index tickets tid with
    | Some idx => Saved (alter (sell_row cust now) idx tickets)
    | None => Refused IndexError
    end
  else
    match avail tickets s_type s_cat with
    | [] => Refused NoAvailableTickets
    | _ => Refused NotAnOption
    end.
Proof.
  unfold manual_sale. rewrite confirm_sale_alter.
  destruct (avail tickets s_type s_cat) as [|a l] eqn:Ha.
  - case_decide as Hin; [by apply elem_of_nil in Hin|done].
  - case_decide; [|done]. by destruct (first_index tickets tid).
Qed.

Lemma reverse_sale_cases tickets r_type r_cat tid :
  reverse_sale tickets r_type r_cat tid =
  if decide (tid ∈ sold_tickets tickets r_type r_cat) then
    match first_index tickets tid with
    | Some idx => Saved (alter reverse_row idx tickets)
    | None => Refused IndexError
    end
  else
    match sold_tickets tickets r_type r_cat with
    | [] => Refused NoSoldTickets
    | _ => Refused NotAnOption
    end.
Proof.
  unfold reverse_sale. rewrite confirm_reverse_alter.
  destruct (sold_tickets tickets r_type r_cat) as [|a l] eqn:Ha.
  - case_decide as Hin; [by apply elem_of_nil in Hin|done].
  - case_decide; [|done]. by destruct (first_index tickets tid).
Qed.

Lemma manual_sale_Saved tickets s_type s_cat tid cust now tickets' :
  manual_sale tickets s_type s_cat tid cust now = Saved tickets' →
  tid ∈ avail tickets s_type s_cat ∧
  ∃ idx, first_index tickets tid = Some idx ∧
         tickets' = alter (sell_row cust now) idx tickets.
Proof.
  rewrite manual_sale_cases. case_decide as Hin.
  - destruct (first_index tickets tid) as [idx|]; [|done].
    intros [= <-]. eauto.
  - by destruct (avail tickets s_type s_cat).
Qed.

Lemma reverse_sale_Saved tickets r_type r_cat tid tickets' :
  reverse_sale tickets r_type r_cat tid = Saved tickets' →
  tid ∈ sold_tickets tickets r_type r_cat ∧
  ∃ idx, first_index tickets tid = Some idx ∧
         tickets' = alter reverse_row idx tickets.
Proof.
  rewrite reverse_sale_cases. case_decide as Hin.
  - destruct (first_index tickets tid) as [idx|]; [|done].
    intros [= <-]. eauto.
  - by destruct (sold_tickets tickets r_type r_cat).
Qed.

(** A listed identifier is always found: the IndexError branch is dead. *)
Lemma listed_is_found tickets tid t :
  t ∈ tickets → TicketID t = tid → is_Some (first_index tickets tid).
Proof.
  intros Hin Hid. unfold first_index.
  destruct (list_find_elem_of (λ t', TicketID t' = tid) tickets t Hin Hid)
    as [[i x] ->].
  by eexists.
Qed.

(** Under I2 a sold ticket is not among the options of the sale form. *)
Lemma sold_not_avail tickets s_type s_cat t :
  I2 tickets → t ∈ tickets → Sold t = true →
  TicketID t ∉ avail tickets s_type s_cat.
Proof.
  intros Hu Hin Hs (t' & Hin' & Hid & _ & _ & Hs')%avail_elem.
  assert (t' = t) as -> by eauto using I2_same_row. congruence.
Qed.

Lemma alter_I2 f idx tickets :
  (∀ t, TicketID (f t) = TicketID t) → I2 tickets → I2 (alter f idx tickets).
Proof. unfold I2. intros Hf. by rewrite alter_TicketID. Qed.
End sales_handlers.

(** ** Properties of the state transitions *)

(** C3. Invariant I1 (an unsold ticket has an empty customer, is not visited,
    has no visitor seats and no timestamp) holds for every ticket after a
    manual sale, a reverse sale, a check-in and a reset, whatever their
    arguments and whether they are accepted or refused, provided it held for
    every ticket before. *)
Theorem I1_preserved_by_every_operation (tickets : list Ticket) :
  Forall I1 tickets →
  (∀ s_type s_cat tid cust now,
     Forall I1 (tickets_after tickets
                  (manual_sale tickets s_type s_cat tid cust now))) ∧
  (∀ r_type r_cat tid,
     Forall I1 (tickets_after tickets (reverse_sale tickets r_type r_cat tid))) ∧
  (∀ ticketID seatsUsed,
     Forall I1 (after_checkin tickets (CheckIn tickets ticketID seatsUsed))) ∧
  (∀ secret, Forall I1 (tickets_after tickets (reset_database tickets secret))).
Proof.
  intros Hinv. split_and!.
  - intros. rewrite manual_sale_cases. case_decide.
    + destruct (first_index tickets tid) as [idx|]; simpl; [|done].
      apply Forall_alter; [done|]. intros t _ _. by apply sold_I1.
    + by destruct (avail tickets s_type s_cat).
  - intros. rewrite reverse_sale_cases. case_decide.
    + destruct (first_index tickets tid) as [idx|]; simpl; [|done].
      apply Forall_alter; [done|]. intros t _ _.
      apply baseline_I1, reverse_row_baseline.
    + by destruct (sold_tickets tickets r_type r_cat).
  - intros. unfold CheckIn.
    destruct (list_find _ tickets) as [[idx t]|] eqn:Hf; simpl; [|done].
    destruct (Sold t) eqn:Hs; simpl; [|done].
    case_bool_decide; simpl; [done|].
    apply list_find_Some in Hf as (Hidx & _ & _).
    rewrite at_set_twice. apply Forall_alter; [done|].
    intros t' Ht' _. assert (t' = t) as -> by congruence. by apply sold_I1.
  - intros. unfold reset_database. case_decide; simpl; [|done].
    apply Forall_fmap, Forall_forall. intros t _.
    apply baseline_I1, reset_row_baseline.
Qed.

Lemma I1_preserved_by_every_operation_witness :
  Forall I1 scenario_inventory ∧
  Forall I1 (tickets_after scenario_inventory
               (manual_sale scenario_inventory "Public" (Some "GA") "0001" "Bob"
                  "2026-01-01 10:00:00")).
Proof.
  assert (Forall I1 scenario_inventory) as Hinv.
  { repeat constructor; reflexivity. }
  split; [exact Hinv|].
  apply (I1_preserved_by_every_operation scenario_inventory Hinv).
Defined.

(** C4. ReverseSale is a left inverse of Sell: for a ticket [t] of an
    inventory with unique identifiers that is unsold and satisfies I1, the
    manual sale of [t] (chosen under its own type and category) is accepted
    and marks it sold to the given customer, the reverse sale of the same
    ticket is then accepted, and it gives back the inventory as it was before
    the sale; the five columns of [t] are again Sold=false, Customer="",
    Visited=false, Visitor_Seats=0, Timestamp=null. *)
Theorem reverse_sale_undoes_manual_sale
    (tickets : list Ticket) (idx : nat) (t : Ticket)
    (s_type cat name now : string) :
  I2 tickets → tickets !! idx = Some t →
  Type_ t = Some s_type → Category t = Some cat →
  Sold t = false → I1 t →
  ∃ sold t1,
    manual_sale tickets s_type (Some cat) (TicketID t) name now = Saved sold ∧
    sold !! idx = Some t1 ∧
    Sold t1 = true ∧ Customer t1 = name ∧ Timestamp t1 = Some now ∧
    reverse_sale sold s_type (Some cat) (TicketID t) = Saved tickets ∧
    baseline t.
Proof.
  intros Hu Hidx Hty Hcat Hs Hi1.
  assert (baseline t) as Hb by (split; [done|by apply Hi1]).
  assert (t ∈ tickets) as Hin by eauto using list_elem_of_lookup_2.
  exists (alter (sell_row name now) idx tickets), (sell_row name now t).
  assert (alter (sell_row name now) idx tickets !! idx
          = Some (sell_row name now t)) as Hidx1.
  { by rewrite list_lookup_alter_eq, Hidx. }
  split_and!; try done.
  - rewrite manual_sale_cases. rewrite decide_True.
    + by rewrite (I2_first_index _ idx t).
    + apply avail_elem. exists t. naive_solver.
  - rewrite reverse_sale_cases. rewrite decide_True.
    + rewrite (I2_first_index _ idx (sell_row name now t)); try done.
      * f_equal. apply list_eq. intros i.
        destruct (decide (idx = i)) as [->|Hne].
        -- rewrite list_lookup_alter_eq, Hidx1, Hidx. simpl.
           by rewrite reverse_sell_row.
        -- by rewrite !list_lookup_alter_ne.
      * by apply alter_I2.
    + apply sold_tickets_elem. exists (sell_row name now t).
      split; [by eapply list_elem_of_lookup_2|]. naive_solver.
Qed.

Lemma reverse_sale_undoes_manual_sale_witness :
  ∃ sold t1,
    manual_sale scenario_inventory "Public" (Some "GA") "0001" "Alice"
      "2026-01-01 10:00:00" = Saved sold ∧
    sold !! 0%nat = Some t1 ∧
    Sold t1 = true ∧ Customer t1 = "Alice" ∧
    Timestamp t1 = Some "2026-01-01 10:00:00" ∧
    reverse_sale sold "Public" (Some "GA") "0001" = Saved scenario_inventory ∧
    baseline (unsold_ticket "0001" (Some 1)).
Proof.
  apply (reverse_sale_undoes_manual_sale scenario_inventory 0
           (unsold_ticket "0001" (Some 1)) "Public" "GA" "Alice"
           "2026-01-01 10:00:00").
  - apply (bool_decide_unpack _). vm_compute. exact I.
  - reflexivity.
  - reflexivity.
  - reflexivity.
  - reflexivity.
  - intros _. repeat split.
Defined.

(** C5. In an inventory with unique identifiers, a manual sale of a ticket
    whose Sold flag is already true is refused (the sale form does not list
    the ticket: the handler answers "no available tickets" or cannot be
    submitted with that identifier) and leaves the collection unchanged; in
    particular, once a ticket has been sold to a first customer, a second
    sale of the same identifier to another customer is refused and the
    ticket keeps the first customer. *)
Theorem manual_sale_of_sold_ticket_refused (tickets : list Ticket) (tid : string) :
  I2 tickets →
  (∀ t s_type s_cat cust now,
     t ∈ tickets → TicketID t = tid → Sold t = true →
     ∃ n, manual_sale tickets s_type s_cat tid cust now = Refused n ∧
          (n = NoAvailableTickets ∨ n = NotAnOption) ∧
          tickets_after tickets (manual_sale tickets s_type s_cat tid cust now)
          = tickets) ∧
  (∀ s_type s_cat first now sold,
     manual_sale tickets s_type s_cat tid first now = Saved sold →
     ∀ s_type' s_cat' second now',
       ∃ n, manual_sale sold s_type' s_cat' tid second now' = Refused n ∧
            ∀ t, t ∈ tickets_after sold
                       (manual_sale sold s_type' s_cat' tid second now') →
                 TicketID t = tid → Customer t = first).
Proof.
  intros Hu.
  assert (∀ l t s_type s_cat cust now,
            I2 l → t ∈ l → TicketID t = tid → Sold t = true →
            ∃ n, manual_sale l s_type s_cat tid cust now = Refused n ∧
                 (n = NoAvailableTickets ∨ n = NotAnOption)) as Hrefused.
  { intros l t s_type s_cat cust now Hl Hin <- Hs.
    rewrite manual_sale_cases.
    rewrite decide_False by eauto using sold_not_avail.
    destruct (avail l s_type s_cat); eauto. }
  split.
  - intros t s_type s_cat cust now Hin Hid Hs.
    destruct (Hrefused tickets t s_type s_cat cust now) as (n & Hn & Hcase);
      try done.
    exists n. by rewrite Hn.
  - intros s_type s_cat first now sold
      (_ & idx & Hidx & ->)%manual_sale_Saved s_type' s_cat' second now'.
    destruct (first_index_Some _ _ _ Hidx) as (t0 & Ht0 & Hid0).
    set (sold := alter (sell_row first now) idx tickets).
    assert (sold !! idx = Some (sell_row first now t0)) as Hsold.
    { unfold sold. by rewrite list_lookup_alter_eq, Ht0. }
    assert (I2 sold) as Hu' by by apply alter_I2.
    assert (sell_row first now t0 ∈ sold) as Hin
      by eauto using list_elem_of_lookup_2.
    destruct (Hrefused sold (sell_row first now t0) s_type' s_cat' second now')
      as (n & Hn & _); try done.
    exists n. split; [done|]. rewrite Hn. simpl. intros t Ht Hid.
    assert (t = sell_row first now t0) as ->; [|done].
    apply (I2_same_row sold); try done. by rewrite Hid.
Qed.

Lemma manual_sale_of_sold_ticket_refused_witness :
  ∃ n, manual_sale
         (tickets_after scenario_inventory
            (manual_sale scenario_inventory "Public" (Some "GA") "0001" "Bob"
               "2026-01-01 10:00:00"))
         "Public" (Some "GA") "0001" "Carol" "2026-01-01 10:05:00" = Refused n ∧
       ∀ t, t ∈ tickets_after
                  (tickets_after scenario_inventory
                     (manual_sale scenario_inventory "Public" (Some "GA") "0001"
                        "Bob" "2026-01-01 10:00:00"))
                  (manual_sale
                     (tickets_after scenario_inventory
                        (manual_sale scenario_inventory "Public" (Some "GA")
                           "0001" "Bob" "2026-01-01 10:00:00"))
                     "Public" (Some "GA") "0001" "Carol" "2026-01-01 10:05:00") →
            TicketID t = "0001" → Customer t = "Bob".
Proof.
  assert (I2 scenario_inventory) as Hu.
  { apply (bool_decide_unpack _). vm_compute. exact I. }
  destruct (manual_sale_of_sold_ticket_refused scenario_inventory "0001" Hu)
    as [_ Hsecond].
  apply (Hsecond "Public" (Some "GA") "Bob" "2026-01-01 10:00:00").
  reflexivity.
Defined.

(** C8. A reset with a password other than the configured one ("admin123")
    is refused with "Incorrect Admin Password" and changes no field of any
    ticket; with the configured password it is saved, and every ticket is
    then at the unsold baseline with its identifier, type, category, admit
    and sequence columns as before. *)
Theorem reset_database_gated (tickets : list Ticket) (secret : string) :
  (secret ≠ "admin123" →
     reset_database tickets secret = Refused IncorrectAdminPassword ∧
     tickets_after tickets (reset_database tickets secret) = tickets) ∧
  (secret = "admin123" →
     ∃ wiped, reset_database tickets secret = Saved wiped ∧
              Forall2 same_inventory tickets wiped ∧ Forall baseline wiped).
Proof.
  unfold reset_database. split; intros Hs.
  - by rewrite decide_False.
  - rewrite decide_True by done. eexists. split; [done|]. split.
    + apply Forall2_fmap_r, Forall_Forall2_diag, Forall_forall.
      intros t _. by repeat split.
    + apply Forall_fmap, Forall_forall. intros t _. apply reset_row_baseline.
Qed.

Lemma reset_database_gated_witness :
  (reset_database scenario_inventory "wrong-secret"
   = Refused IncorrectAdminPassword ∧
   tickets_after scenario_inventory
     (reset_database scenario_inventory "wrong-secret") = scenario_inventory) ∧
  ∃ wiped, reset_database scenario_inventory "admin123" = Saved wiped ∧
           Forall2 same_inventory scenario_inventory wiped ∧
           Forall baseline wiped.
Proof.
  split.
  - destruct (reset_database_gated scenario_inventory "wrong-secret")
      as [Hwrong _].
    apply Hwrong. discriminate.
  - destruct (reset_database_gated scenario_inventory "admin123") as [_ Hright].
    apply Hright. reflexivity.
Defined.

(** C9. For the ticket [t] an identifier names (identifiers being unique)
    and a seat count that is not negative, a check-in fails with NotSold
    when [t] is not sold; when [t] is sold it succeeds and the ticket then
    has Visited=true and Visitor_Seats equal to the seats given, the other
    columns being kept; a second check-in on the ticket, now visited,
    succeeds as well and overwrites Visitor_Seats with the new value.  A
    negative seat count is rejected, with ValidationError on a sold ticket,
    and leaves the collection as it is. *)
Theorem CheckIn_behaviour
    (tickets : list Ticket) (idx : nat) (t : Ticket) (seatsUsed : Z) :
  I2 tickets → tickets !! idx = Some t →
  (0 ≤ seatsUsed →
   (Sold t = false → CheckIn tickets (TicketID t) seatsUsed = inl NotSold) ∧
   (Sold t = true →
      ∃ visited t1,
        CheckIn tickets (TicketID t) seatsUsed = inr visited ∧
        visited !! idx = Some t1 ∧ t1 = checkin_row seatsUsed t ∧
        Visited t1 = true ∧ Visitor_Seats t1 = seatsUsed ∧
        ∀ seatsAgain,
          0 ≤ seatsAgain →
          ∃ again t2,
            CheckIn visited (TicketID t) seatsAgain = inr again ∧
            again !! idx = Some t2 ∧
            Visited t2 = true ∧ Visitor_Seats t2 = seatsAgain)) ∧
  (seatsUsed < 0 →
   ∃ e, CheckIn tickets (TicketID t) seatsUsed = inl e ∧
        (Sold t = true → e = ValidationError) ∧
        after_checkin tickets (CheckIn tickets (TicketID t) seatsUsed) = tickets).
Proof.
  intros Hu Hidx.
  assert (∀ l x, I2 l → l !! idx = Some x →
            list_find (λ t', TicketID t' = TicketID x) l = Some (idx, x)) as Hfind.
  { intros l x Hl Hx. pose proof (I2_first_index l idx x Hl Hx) as Hfi.
    unfold first_index in Hfi.
    destruct (list_find _ l) as [[j y]|] eqn:Hf; [|done].
    simpl in Hfi. injection Hfi as ->.
    apply list_find_Some in Hf as (Hy & _ & _). congruence. }
  split.
  - intros Hseats. split; intros Hs.
    + unfold CheckIn. by rewrite (Hfind tickets t), Hs.
    + exists (alter (checkin_row seatsUsed) idx tickets),
             (checkin_row seatsUsed t).
      assert (alter (checkin_row seatsUsed) idx tickets !! idx
              = Some (checkin_row seatsUsed t)) as Hidx1.
      { by rewrite list_lookup_alter_eq, Hidx. }
      split_and!; try done.
      * unfold CheckIn. rewrite (Hfind tickets t), Hs by done.
        rewrite bool_decide_eq_false_2 by lia. by rewrite at_set_twice.
      * intros seatsAgain Hagain.
        exists (alter (checkin_row seatsAgain) idx
                  (alter (checkin_row seatsUsed) idx tickets)),
               (checkin_row seatsAgain (checkin_row seatsUsed t)).
        split_and!; try done.
        -- unfold CheckIn.
           change (TicketID t) with (TicketID (checkin_row seatsUsed t)).
           rewrite (Hfind _ (checkin_row seatsUsed t)); try done.
           ++ simpl. rewrite Hs. rewrite bool_decide_eq_false_2 by lia.
              by rewrite at_set_twice.
           ++ by apply alter_I2.
        -- by rewrite list_lookup_alter_eq, Hidx1.
  - intros Hneg. unfold CheckIn. rewrite (Hfind tickets t) by done.
    destruct (Sold t); [rewrite bool_decide_eq_true_2 by done|];
      eexists; split_and!; done.
Qed.

Lemma CheckIn_behaviour_witness :
  (CheckIn scenario_inventory "0001" 2 = inl NotSold ∧
   ∃ visited t1,
     CheckIn [sell_row "Bob" "2026-01-01 10:00:00" (unsold_ticket "0001" (Some 1));
              unsold_ticket "0002" (Some 1)] "0001" 2 = inr visited ∧
     visited !! 0%nat = Some t1 ∧
     t1 = checkin_row 2
            (sell_row "Bob" "2026-01-01 10:00:00" (unsold_ticket "0001" (Some 1))) ∧
     Visited t1 = true ∧ Visitor_Seats t1 = 2 ∧
     ∀ seatsAgain,
       0 ≤ seatsAgain →
       ∃ again t2,
         CheckIn visited "0001" seatsAgain = inr again ∧
         again !! 0%nat = Some t2 ∧
         Visited t2 = true ∧ Visitor_Seats t2 = seatsAgain) ∧
  ∃ e, CheckIn [sell_row "Bob" "2026-01-01 10:00:00"
                  (unsold_ticket "0001" (Some 1));
                unsold_ticket "0002" (Some 1)] "0001" (-5) = inl e ∧
       (true = true → e = ValidationError) ∧
       after_checkin
         [sell_row "Bob" "2026-01-01 10:00:00" (unsold_ticket "0001" (Some 1));
          unsold_ticket "0002" (Some 1)]
         (CheckIn [sell_row "Bob" "2026-01-01 10:00:00"
                     (unsold_ticket "0001" (Some 1));
                   unsold_ticket "0002" (Some 1)] "0001" (-5))
       = [sell_row "Bob" "2026-01-01 10:00:00" (unsold_ticket "0001" (Some 1));
          unsold_ticket "0002" (Some 1)].
Proof.
  assert (I2 scenario_inventory) as Hu.
  { apply (bool_decide_unpack _). vm_compute. exact I. }
  assert (I2 [sell_row "Bob" "2026-01-01 10:00:00"
                (unsold_ticket "0001" (Some 1));
              unsold_ticket "0002" (Some 1)]) as Hu'.
  { apply (bool_decide_unpack _). vm_compute. exact I. }
  split; [split|].
  - destruct (CheckIn_behaviour scenario_inventory 0
                (unsold_ticket "0001" (Some 1)) 2 Hu eq_refl) as [Hok _].
    apply Hok; [lia|reflexivity].
  - destruct (CheckIn_behaviour _ 0
                (sell_row "Bob" "2026-01-01 10:00:00"
                   (unsold_ticket "0001" (Some 1))) 2 Hu' eq_refl) as [Hok _].
    apply Hok; [lia|reflexivity].
  - destruct (CheckIn_behaviour _ 0
                (sell_row "Bob" "2026-01-01 10:00:00"
                   (unsold_ticket "0001" (Some 1))) (-5) Hu' eq_refl)
      as [_ Hneg].
    apply Hneg. lia.
Defined.

(** C10. A saved manual sale and a saved reverse sale each change only the
    ticket whose identifier is the one given: in an inventory with unique
    identifiers exactly one position holds that identifier, every other
    position holds the same row as before, so every ticket with another
    identifier has all its fields unchanged; the collection keeps its length
    and its identifier column. *)
Theorem sale_and_reversal_frame (tickets saved : list Ticket) (tid : string) :
  I2 tickets →
  (∃ s_type s_cat cust now,
     manual_sale tickets s_type s_cat tid cust now = Saved saved) ∨
  (∃ r_type r_cat, reverse_sale tickets r_type r_cat tid = Saved saved) →
  length saved = length tickets ∧
  TicketID <$> saved = TicketID <$> tickets ∧
  (∃ idx, (∀ i t, tickets !! i = Some t → TicketID t = tid ↔ i = idx) ∧
          ∀ i, i ≠ idx → saved !! i = tickets !! i) ∧
  (∀ i t, tickets !! i = Some t → TicketID t ≠ tid → saved !! i = Some t).
Proof.
  intros Hu Hop.
  assert (∃ f idx, (∀ t, TicketID (f t) = TicketID t) ∧
                   first_index tickets tid = Some idx ∧
                   saved = alter f idx tickets) as (f & idx & Hf & Hidx & ->).
  { destruct Hop as [(s_type & s_cat & cust & now & H)|(r_type & r_cat & H)].
    - apply manual_sale_Saved in H as (_ & idx & ? & ?).
      exists (sell_row cust now), idx. done.
    - apply reverse_sale_Saved in H as (_ & idx & ? & ?).
      exists reverse_row, idx. done. }
  destruct (first_index_Some _ _ _ Hidx) as (t0 & Ht0 & Hid0).
  assert (∀ i t, tickets !! i = Some t → TicketID t = tid ↔ i = idx) as Hone.
  { intros i t Hi. split.
    - intros Hid. apply (I2_same_index tickets i idx t t0); congruence.
    - intros ->. congruence. }
  split_and!.
  - apply length_alter.
  - by apply alter_TicketID.
  - exists idx. split; [done|]. intros i Hne. by apply list_lookup_alter_ne.
  - intros i t Hi Hid. rewrite list_lookup_alter_ne; [done|].
    intros <-. apply Hid. by apply (Hone idx t).
Qed.

Lemma sale_and_reversal_frame_witness :
  tickets_after scenario_inventory
    (manual_sale scenario_inventory "Public" (Some "GA") "0001" "Bob"
       "2026-01-01 10:00:00") !! 1%nat
  = Some (unsold_ticket "0002" (Some 1)).
Proof.
  assert (I2 scenario_inventory) as Hu.
  { apply (bool_decide_unpack _). vm_compute. exact I. }
  eapply (sale_and_reversal_frame scenario_inventory _ "0001" Hu).
  - left. exists "Public", (Some "GA"), "Bob", "2026-01-01 10:00:00". reflexivity.
  - reflexivity.
  - discriminate.
Defined.

(** ** Load normalisation *)

(** C7, as stated, fails: a numeric Admit of 0 is kept by the normalisation,
    so the loaded collection does not satisfy I3. *)
Lemma load_keeps_Admit_zero :
  Admit (normalize (raw_row "1" (RNumber 0) (RNumber 1))) = 0 ∧
  ¬ Forall I3 (load_all_data [raw_row "1" (RNumber 0) (RNumber 1)]).
Proof.
  split; [reflexivity|].
  intros H. apply Forall_cons in H as [H _]. unfold I3 in H. simpl in H. lia.
Qed.

(** C7, amended. After load normalisation an absent or non-numeric Admit is
    1 and a numeric Admit is the number read, whatever its sign; the loaded
    collection therefore satisfies I3 (Admit at least 1) exactly when every
    numeric Admit read is at least 1. *)
Theorem Admit_after_load (rows : list RawTicket) :
  Forall2 (λ r t, Admit t = match rAdmit r with
                            | RNumber z => z
                            | RNull | RNonNumeric => 1
                            end) rows (load_all_data rows) ∧
  (Forall I3 (load_all_data rows) ↔
   ∀ r z, r ∈ rows → rAdmit r = RNumber z → 1 ≤ z).
Proof.
  unfold load_all_data. split.
  - apply Forall2_fmap_r, Forall_Forall2_diag, Forall_forall.
    intros r _. simpl. by destruct (rAdmit r).
  - rewrite Forall_fmap, Forall_forall. unfold I3. split.
    + intros H r z Hin Hz. specialize (H r Hin). simpl in H.
      by rewrite Hz in H.
    + intros H r Hin. simpl. specialize (H r).
      destruct (rAdmit r); simpl; [lia|by apply H|lia].
Qed.

Lemma Admit_after_load_witness :
  Forall I3 (load_all_data [raw_row "1" (RNumber 2) (RNumber 1);
                            raw_row "2" RNull (RNumber 1);
                            raw_row "3" RNonNumeric RNull]).
Proof.
  apply (Admit_after_load [raw_row "1" (RNumber 2) (RNumber 1);
                           raw_row "2" RNull (RNumber 1);
                           raw_row "3" RNonNumeric RNull]).
  intros r z Hin Hz.
  repeat (apply elem_of_cons in Hin as [->|Hin]; [simpl in Hz|]).
  - injection Hz as <-. lia.
  - discriminate.
  - discriminate.
  - by apply elem_of_nil in Hin.
Defined.

(** ** 64-bit arithmetic *)

Section wrap.
Implicit Types (x y : Z).

Lemma wrap64_range x : in_int64 (wrap64 x).
Proof.
  unfold in_int64, wrap64.
  pose proof (Z.mod_pos_bound (x + 2 ^ 63) (2 ^ 64) eq_refl). lia.
Qed.

Lemma wrap64_small x : in_int64 x → wrap64 x = x.
Proof.
  unfold in_int64, wrap64. intros Hx. rewrite Z.mod_small; lia.
Qed.

Lemma wrap64_twice x : wrap64 (wrap64 x) = wrap64 x.
Proof. apply wrap64_small, wrap64_range. Qed.

Lemma wrap64_add_l x y : wrap64 (wrap64 x + y) = wrap64 (x + y).
Proof.
  unfold wrap64. f_equal.
  replace ((x + 2 ^ 63) mod 2 ^ 64 - 2 ^ 63 + y + 2 ^ 63)
    with ((x + 2 ^ 63) mod 2 ^ 64 + y) by lia.
  rewrite Zplus_mod_idemp_l. f_equal. lia.
Qed.

Lemma wrap64_add_r x y : wrap64 (x + wrap64 y) = wrap64 (x + y).
Proof. by rewrite (Z.add_comm x), wrap64_add_l, (Z.add_comm y). Qed.

Lemma wrap64_opp x : wrap64 (- wrap64 x) = wrap64 (- x).
Proof.
  unfold wrap64. f_equal.
  replace (- ((x + 2 ^ 63) mod 2 ^ 64 - 2 ^ 63) + 2 ^ 63)
    with (2 ^ 64 - (x + 2 ^ 63) mod 2 ^ 64) by lia.
  rewrite Zminus_mod_idemp_r. f_equal. lia.
Qed.


Lemma wrap64_sub_r x y : wrap64 (x - wrap64 y) = wrap64 (x - y).
Proof.
  unfold Z.sub. rewrite <- wrap64_add_r, wrap64_opp, wrap64_add_r. done.
Qed.

Lemma wrap64_0 : wrap64 0 = 0.
Proof. reflexivity. Qed.
End wrap.

Section congruence.
Global Instance eqm64_equiv : Equivalence eqm64.
Proof.
  unfold eqm64. split.
  - by intros x.
  - by intros x y.
  - intros x y z. congruence.
Qed.

Global Instance eqm64_add : Proper (eqm64 ==> eqm64 ==> eqm64) Z.add.
Proof.
  unfold eqm64. intros x x' Hx y y' Hy.
  by rewrite (Zplus_mod x), (Zplus_mod x'), Hx, Hy.
Qed.

Global Instance eqm64_sub : Proper (eqm64 ==> eqm64 ==> eqm64) Z.sub.
Proof.
  unfold eqm64. intros x x' Hx y y' Hy.
  by rewrite (Zminus_mod x), (Zminus_mod x'), Hx, Hy.
Qed.

Global Instance eqm64_mul : Proper (eqm64 ==> eqm64 ==> eqm64) Z.mul.
Proof.
  unfold eqm64. intros x x' Hx y y' Hy.
  by rewrite (Zmult_mod x), (Zmult_mod x'), Hx, Hy.
Qed.


End congruence.


(** ** Reconciliation *)

Section reconciliation.
Implicit Types (t : Ticket) (df tickets : list Ticket) (k : GroupKey)
               (r : SummaryRow) (rows : list SummaryRow).

Global Instance Zsum_Permutation : Proper ((≡ₚ) ==> (=)) Zsum.
Proof.
  intros l1 l2 Hp. unfold Zsum.
  induction Hp; simpl; lia.
Qed.


Global Instance sort_key_le_trans : Transitive sort_key_le.
Proof. unfold sort_key_le. intros a b c. lia. Qed.

Global Instance sort_key_le_total : Total sort_key_le.
Proof. unfold sort_key_le. intros a b. lia. Qed.

Lemma custom_sort_Permutation rows : custom_sort rows ≡ₚ rows.
Proof. apply merge_sort_Permutation. Qed.

Lemma custom_sort_sorted rows : StronglySorted sort_key_le (custom_sort rows).
Proof. apply StronglySorted_merge_sort; apply _. Qed.

(** In a sorted frame, a row above another has the smaller key. *)
Lemma sorted_lookup rows i j (a b : SummaryRow) :
  StronglySorted sort_key_le rows →
  rows !! i = Some a → rows !! j = Some b → (i < j)%nat → sort_key_le a b.
Proof.
  intros Hs. revert i j. induction Hs as [|x l Hs IH Hall]; intros i j Hi Hj Hlt.
  - done.
  - destruct i as [|i], j as [|j]; simpl in *; try lia.
    + injection Hi as ->. eapply Forall_forall; [exact Hall|].
      by eapply list_elem_of_lookup_2.
    + apply (IH i j); auto with lia.
Qed.

(** Two rows with different keys stand in the order of their keys. *)
Lemma sorted_appears_after rows (later earlier : SummaryRow) :
  StronglySorted sort_key_le rows →
  sort_key (row_Seq earlier) < sort_key (row_Seq later) →
  appears_after rows later earlier.
Proof.
  intros Hs Hlt i j Hi Hj.
  destruct (decide (j < i)%nat) as [|Hge]; [done|]. exfalso.
  destruct (decide (i = j)) as [->|Hne].
  - assert (later = earlier) as -> by congruence. lia.
  - pose proof (sorted_lookup rows i j later earlier Hs Hi Hj) as Hle.
    unfold sort_key_le in Hle. lia.
Qed.

Lemma group_keys_Permutation df :
  group_keys df ≡ₚ remove_dups (omap group_key df).
Proof. apply merge_sort_Permutation. Qed.

Lemma group_keys_NoDup df : NoDup (group_keys df).
Proof. rewrite group_keys_Permutation. apply NoDup_remove_dups. Qed.

Lemma group_keys_elem df k :
  k ∈ group_keys df ↔ ∃ t, t ∈ df ∧ group_key t = Some k.
Proof.
  by rewrite group_keys_Permutation, elem_of_remove_dups, list_elem_of_omap.
Qed.

Lemma row_key_summary_row k g : row_key (summary_row k g) = k.
Proof. by destruct k. Qed.

Lemma summary_Permutation tickets : summary tickets ≡ₚ grouped tickets.
Proof. apply custom_sort_Permutation. Qed.

(** The rows of the summary are the rows of the groups. *)
Lemma summary_elem tickets r :
  r ∈ summary tickets ↔
  ∃ k, k ∈ group_keys tickets ∧ r = summary_row k (group_of tickets k).
Proof.
  rewrite summary_Permutation. unfold grouped. rewrite list_elem_of_fmap.
  split; intros (k & H1 & H2); eauto.
Qed.

(** One row per distinct key. *)
Lemma summary_keys_NoDup tickets : NoDup (row_key <$> summary tickets).
Proof.
  rewrite summary_Permutation. unfold grouped. rewrite <- list_fmap_compose.
  erewrite list_fmap_ext; [rewrite list_fmap_id; apply group_keys_NoDup|].
  intros i k _. simpl. apply row_key_summary_row.
Qed.


Lemma agg_sold_count (g : list Ticket) :
  agg_sold g = Z.of_nat (length (filter (λ t, Sold t = true) g)).
Proof.
  unfold agg_sold, Zsum. induction g as [|x g' IH]; [done|].
  rewrite fmap_cons, filter_cons. cbn [foldr]. rewrite IH.
  destruct (Sold x) eqn:Hs.
  - rewrite decide_True by done. cbn [length]. lia.
  - rewrite decide_False by done. lia.
Qed.

(** The group of a row is the set of tickets that carry its four key
    values. *)
Lemma counted_in_group_key r t :
  group_key t = Some (row_key r) ↔ counted_in r t.
Proof.
  unfold group_key, counted_in, row_key.
  destruct (Seq t) as [q|], (Type_ t) as [ty|], (Category t) as [c|]; simpl;
    (split;
     [intros H; injection H as ? ? ? ?; repeat split; congruence
     |intros (H1 & H2 & H3 & H4); congruence]) ||
    (split; [intros H; discriminate H|intros (H1 & H2 & H3 & H4); congruence]).
Qed.

Lemma group_of_counted tickets r :
  group_of tickets (row_key r) = filter (counted_in r) tickets.
Proof. unfold group_of. apply list_filter_iff, counted_in_group_key. Qed.

Lemma summary_row_equations tickets k :
  k ∈ group_keys tickets →
  group_equations tickets (summary_row k (group_of tickets k)).
Proof.
  intros (t & Hin & Hk)%group_keys_elem.
  unfold group_equations. rewrite <- group_of_counted, row_key_summary_row.
  simpl. split_and!; try done.
  - intros Hnil. assert (t ∈ group_of tickets k) as Ht.
    { unfold group_of. by apply list_elem_of_filter. }
    rewrite Hnil in Ht. by apply elem_of_nil in Ht.
  - apply agg_sold_count.
Qed.
End reconciliation.

(** ** Counting the tickets of the summary *)

Section counting.
Implicit Types (df tickets : list Ticket) (k : GroupKey) (ks : list GroupKey).






End counting.

(** ** The sort key *)

Section sort_key.
Implicit Types (x : Qc) (z n : Z).

Lemma py_int_of_Z z : py_int (Qc_of_Z z) = z.
Proof. unfold py_int. simpl. apply Z.quot_1_r. Qed.

Lemma Qc_of_Z_inj z n : Qc_of_Z z = Qc_of_Z n → z = n.
Proof. intros H. apply (f_equal py_int) in H. by rewrite !py_int_of_Z in H. Qed.

Lemma Qc_of_Z_lt z n : z < n → (Qc_of_Z z < Qc_of_Z n)%Qc.
Proof. intros H. unfold Qclt, Qlt. simpl. lia. Qed.

Lemma sort_key_zero : sort_key (Qc_of_Z 0) = 10.
Proof. unfold sort_key. by rewrite bool_decide_eq_true_2. Qed.

Lemma sort_key_nonzero x : x ≠ Qc_of_Z 0 → sort_key x = py_int x.
Proof. intros H. unfold sort_key. by rewrite bool_decide_eq_false_2. Qed.

Lemma sort_key_of_Z z : z ≠ 0 → sort_key (Qc_of_Z z) = z.
Proof.
  intros H. rewrite sort_key_nonzero, py_int_of_Z; [done|].
  intros Heq%Qc_of_Z_inj. done.
Qed.

(** [int(x)] of a number that is not negative and below the integer [n] is
    below [n]. *)
Lemma py_int_lt x n :
  (Qc_of_Z 0 ≤ x)%Qc → (x < Qc_of_Z n)%Qc → py_int x < n.
Proof.
  unfold Qcle, Qclt, Qle, Qlt, py_int. simpl. intros Hpos Hlt.
  rewrite Z.quot_div_nonneg by lia.
  apply Z.div_lt_upper_bound; lia.
Qed.

(** [int(x)] of a number that is at least the integer [n], not negative, is
    at least [n]. *)
Lemma py_int_ge x n :
  0 ≤ n → (Qc_of_Z n ≤ x)%Qc → n ≤ py_int x.
Proof.
  unfold Qcle, Qle, py_int. simpl. intros Hn Hle.
  rewrite Z.quot_div_nonneg by nia.
  apply Z.div_le_lower_bound; lia.
Qed.
End sort_key.

(** ** Properties of the summary *)

(** C1, as stated, fails: with a group whose Seq is 0 and a group whose Seq
    is 11, the Seq=0 row stands above the Seq=11 row, not after it. *)
Lemma Seq_zero_row_above_Seq_eleven :
  summary [unsold_ticket "0001" (Some 0); unsold_ticket "0002" (Some 11)]
  = [unsold_row 0 1; unsold_row 11 1] ∧
  ¬ appears_after
      (summary [unsold_ticket "0001" (Some 0); unsold_ticket "0002" (Some 11)])
      (unsold_row 0 1) (unsold_row 11 1).
Proof.
  assert (summary [unsold_ticket "0001" (Some 0); unsold_ticket "0002" (Some 11)]
          = [unsold_row 0 1; unsold_row 11 1]) as Hs by (vm_compute; reflexivity).
  split; [exact Hs|]. rewrite Hs. intros H.
  specialize (H 0%nat 1%nat eq_refl eq_refl). lia.
Qed.

(** C1, amended. The rows of the summary stand in increasing order of the
    sort key, which is 10 for a Seq of 0 and otherwise int(Seq), the Seq
    rounded toward zero (the Seq itself when it is an integer); every ticket
    with a complete key has the row of its group in the summary; a row whose
    Seq is 0 therefore appears after every row whose Seq is positive and
    below 10, and in particular after a row whose Seq is 5. *)
Theorem summary_sorted_by_sort_key (tickets : list Ticket) :
  sort_key (Qc_of_Z 0) = 10 ∧
  (∀ x, x ≠ Qc_of_Z 0 → sort_key x = py_int x) ∧
  (∀ z, py_int (Qc_of_Z z) = z) ∧
  StronglySorted sort_key_le (summary tickets) ∧
  (∀ t k, t ∈ tickets → group_key t = Some k →
          ∃ r, r ∈ summary tickets ∧ row_key r = k) ∧
  (∀ r0 r, row_Seq r0 = Qc_of_Z 0 →
           (Qc_of_Z 0 < row_Seq r)%Qc → (row_Seq r < Qc_of_Z 10)%Qc →
           appears_after (summary tickets) r0 r) ∧
  (∀ r0 r5, row_Seq r0 = Qc_of_Z 0 → row_Seq r5 = Qc_of_Z 5 →
            appears_after (summary tickets) r0 r5).
Proof.
  assert (∀ r0 r, row_Seq r0 = Qc_of_Z 0 →
                  (Qc_of_Z 0 < row_Seq r)%Qc → (row_Seq r < Qc_of_Z 10)%Qc →
                  appears_after (summary tickets) r0 r) as Hafter.
  { intros r0 r H0 Hpos Hr. apply sorted_appears_after; [apply custom_sort_sorted|].
    rewrite H0, sort_key_zero, sort_key_nonzero.
    - apply py_int_lt; [by apply Qclt_le_weak|done].
    - intros Heq. rewrite Heq in Hpos. by apply Qclt_not_eq in Hpos. }
  split_and!.
  - apply sort_key_zero.
  - apply sort_key_nonzero.
  - apply py_int_of_Z.
  - apply custom_sort_sorted.
  - intros t k Hin Hk. exists (summary_row k (group_of tickets k)). split.
    + apply summary_elem. exists k. split; [|done]. apply group_keys_elem. eauto.
    + apply row_key_summary_row.
  - exact Hafter.
  - intros r0 r5 H0 H5. apply Hafter; [done|rewrite H5..].
    + apply Qc_of_Z_lt. lia.
    + apply Qc_of_Z_lt. lia.
Qed.

Lemma summary_sorted_by_sort_key_witness :
  appears_after
    (summary [unsold_ticket "0001" (Some 0); unsold_ticket "0002" (Some 5)])
    (unsold_row 0 1) (unsold_row 5 1).
Proof.
  destruct (summary_sorted_by_sort_key
              [unsold_ticket "0001" (Some 0); unsold_ticket "0002" (Some 5)])
    as (_ & _ & _ & _ & _ & _ & Hfive).
  apply Hfive; reflexivity.
Defined.

(** C2, at the failing input. Two rows are loaded, the second with a NULL
    Seq: the summary has the single group of the first ticket, and the
    Total_Tickets of its group rows add up to 1 while the collection has 2
    tickets. *)
Theorem summary_omits_ticket_without_Seq :
  summary_final (load_all_data [raw_row "1" (RNumber 2) (RNumber 1);
                                raw_row "2" (RNumber 2) RNull])
  = [GroupRow (unsold_row 1 1); TotalRow (mkTotals 2 1 0 2 0 0 1 2 0)] ∧
  Zsum (Total_Tickets <$>
          group_rows (summary_final
                        (load_all_data [raw_row "1" (RNumber 2) (RNumber 1);
                                        raw_row "2" (RNumber 2) RNull]))) = 1 ∧
  length (load_all_data [raw_row "1" (RNumber 2) (RNumber 1);
                         raw_row "2" (RNumber 2) RNull]) = 2%nat.
Proof. split_and!; vm_compute; reflexivity. Qed.




(** ** Identifiers after load, and the write-through round trip *)

Section identifiers.
Implicit Types (s : string) (r : RawTicket) (t : Ticket).

Lemma pad_zeros_char_length (n : nat) s :
  char_length (pad_zeros n s) = (n + char_length s)%nat.
Proof. induction n as [|n IH]; simpl; [done|]. f_equal. exact IH. Qed.

Lemma zfill_long (w : nat) s : (w ≤ char_length s)%nat → zfill w s = s.
Proof.
  intros Hle. unfold zfill.
  replace (w - char_length s)%nat with 0%nat by lia.
  destruct s as [|a rest]; [done|]. simpl. by destruct (is_sign a).
Qed.

Lemma zfill_char_length (w : nat) s :
  char_length (zfill w s) = (w `max` char_length s)%nat.
Proof.
  unfold zfill. destruct s as [|a rest].
  - rewrite pad_zeros_char_length. lia.
  - destruct (is_sign a).
    + cbn [char_length]. rewrite pad_zeros_char_length. lia.
    + rewrite pad_zeros_char_length. lia.
Qed.

Lemma zfill_unsigned (w : nat) s :
  unsigned s → zfill w s = pad_zeros (w - char_length s) s.
Proof.
  unfold zfill, unsigned. destruct s as [|a rest]; [done|]. by intros ->.
Qed.

Lemma pad_zeros_inj (n m : nat) s1 s2 :
  plain_start s1 → plain_start s2 →
  pad_zeros n s1 = pad_zeros m s2 → s1 = s2.
Proof.
  intros H1 H2. revert m. induction n as [|n IH]; intros [|m]; simpl; intros Heq.
  - done.
  - subst s1. by destruct H1 as [[] _].
  - subst s2. by destruct H2 as [[] _].
  - injection Heq as Heq. by apply (IH m).
Qed.

Lemma plain_start_unsigned s : plain_start s → unsigned s.
Proof. unfold plain_start, unsigned. destruct s; [done|]. by intros [_ ?]. Qed.

Lemma normalize_stored t :
  (4 ≤ char_length (TicketID t))%nat → normalize (stored t) = t.
Proof.
  intros Hlen. destruct t as [id ty c a sq sold cust vis seats tsp].
  unfold normalize, stored; simpl in *. rewrite zfill_long by done.
  by destruct sq.
Qed.

Lemma normalize_TicketID_length r :
  (4 ≤ char_length (TicketID (normalize r)))%nat.
Proof. simpl. rewrite zfill_char_length. lia. Qed.

(** A frame whose identifier column is that of a loaded frame is read back
    as it was written. *)
Lemma reload_same_identifiers (rows : list RawTicket) (tickets : list Ticket) :
  TicketID <$> tickets = TicketID <$> load_all_data rows →
  load_all_data (save_tickets_df tickets) = tickets.
Proof.
  intros Hids. unfold load_all_data at 1, save_tickets_df.
  rewrite <- list_fmap_compose.
  rewrite <- (list_fmap_id tickets) at 2. apply list_fmap_ext.
  intros i t Hi. simpl. apply normalize_stored.
  assert ((TicketID <$> tickets) !! i = Some (TicketID t)) as Hid
    by by rewrite list_lookup_fmap, Hi.
  rewrite Hids in Hid. unfold load_all_data in Hid.
  rewrite <- list_fmap_compose, list_lookup_fmap in Hid.
  destruct (rows !! i) as [r|]; simplify_eq/=.
  rewrite <- Hid. rewrite zfill_char_length. lia.
Qed.
End identifiers.

(** X1. After load every TicketID has max(4, n) characters, n being the
    number of characters of the stored text: it is never shorter than four
    characters and a text of four or more characters is kept as it is; a
    shorter text that does not begin with a sign is the stored text behind
    4 - n zeros, and one that begins with a sign is the sign, 4 - n zeros and
    the rest of the text; padding a loaded identifier again changes
    nothing. *)
Theorem TicketID_after_load (r : RawTicket) :
  char_length (TicketID (normalize r))
  = (4 `max` char_length (rTicketID r))%nat ∧
  ((4 ≤ char_length (rTicketID r))%nat → TicketID (normalize r) = rTicketID r) ∧
  (unsigned (rTicketID r) →
   TicketID (normalize r)
   = pad_zeros (4 - char_length (rTicketID r)) (rTicketID r)) ∧
  (∀ a rest, rTicketID r = String a rest → is_sign a = true →
             TicketID (normalize r)
             = String a (pad_zeros (4 - char_length (rTicketID r)) rest)) ∧
  zfill 4 (TicketID (normalize r)) = TicketID (normalize r).
Proof.
  split_and!.
  - apply zfill_char_length.
  - apply zfill_long.
  - apply zfill_unsigned.
  - intros a rest Hs Ha. simpl. unfold zfill. by rewrite Hs, Ha.
  - apply zfill_long, normalize_TicketID_length.
Qed.

Lemma TicketID_after_load_witness :
  TicketID (normalize (raw_row "12345" RNull RNull)) = "12345" ∧
  TicketID (normalize (raw_row "7" RNull RNull)) = "0007" ∧
  TicketID (normalize (raw_row "-1" RNull RNull)) = "-001".
Proof.
  split_and!.
  - destruct (TicketID_after_load (raw_row "12345" RNull RNull))
      as (_ & Hkeep & _).
    apply Hkeep. simpl. lia.
  - destruct (TicketID_after_load (raw_row "7" RNull RNull))
      as (_ & _ & Hpad & _).
    apply Hpad. reflexivity.
  - destruct (TicketID_after_load (raw_row "-1" RNull RNull))
      as (_ & _ & _ & Hsign & _).
    apply (Hsign "-"%char "1"); reflexivity.
Defined.

(** X2. Load keeps identifiers distinct when the stored identifiers are
    pairwise distinct and none of them begins with the character 0 or with
    a sign (zero padding then cannot make two of them equal): the loaded
    collection satisfies I2. *)
Theorem load_keeps_identifiers_distinct (rows : list RawTicket) :
  NoDup (rTicketID <$> rows) →
  Forall (λ r, plain_start (rTicketID r)) rows →
  I2 (load_all_data rows).
Proof.
  intros Hnd Hplain. unfold I2, load_all_data. rewrite <- list_fmap_compose.
  change (TicketID ∘ normalize) with (zfill 4 ∘ rTicketID).
  rewrite list_fmap_compose. apply NoDup_fmap_2_strong; [|done].
  intros s1 s2 (r1 & -> & Hr1)%list_elem_of_fmap (r2 & -> & Hr2)%list_elem_of_fmap.
  rewrite Forall_forall in Hplain.
  rewrite !zfill_unsigned by auto using plain_start_unsigned.
  apply pad_zeros_inj; auto.
Qed.

Lemma load_keeps_identifiers_distinct_witness :
  I2 (load_all_data [raw_row "1" RNull RNull; raw_row "27" RNull RNull]).
Proof.
  apply (load_keeps_identifiers_distinct
           [raw_row "1" RNull RNull; raw_row "27" RNull RNull]).
  - apply (bool_decide_unpack _). vm_compute. exact I.
  - repeat constructor; discriminate.
Defined.

(** X3. Write-through round trip: for a frame loaded from the table, what
    the next run loads after [save_tickets_df] is the saved frame itself,
    and so is it after a manual sale, a reverse sale or a reset of that
    frame, saved or refused. *)
Theorem reload_after_write_through (rows : list RawTicket) :
  load_all_data (save_tickets_df (load_all_data rows)) = load_all_data rows ∧
  (∀ s_type s_cat tid cust now,
     load_all_data
       (save_tickets_df
          (tickets_after (load_all_data rows)
             (manual_sale (load_all_data rows) s_type s_cat tid cust now)))
     = tickets_after (load_all_data rows)
         (manual_sale (load_all_data rows) s_type s_cat tid cust now)) ∧
  (∀ r_type r_cat tid,
     load_all_data
       (save_tickets_df
          (tickets_after (load_all_data rows)
             (reverse_sale (load_all_data rows) r_type r_cat tid)))
     = tickets_after (load_all_data rows)
         (reverse_sale (load_all_data rows) r_type r_cat tid)) ∧
  (∀ secret,
     load_all_data
       (save_tickets_df
          (tickets_after (load_all_data rows)
             (reset_database (load_all_data rows) secret)))
     = tickets_after (load_all_data rows)
         (reset_database (load_all_data rows) secret)).
Proof.
  split_and!; intros; apply (reload_same_identifiers rows).
  - done.
  - rewrite manual_sale_cases. case_decide.
    + destruct (first_index _ tid); simpl; [|done]. by apply alter_TicketID.
    + by destruct (avail _ s_type s_cat).
  - rewrite reverse_sale_cases. case_decide.
    + destruct (first_index _ tid); simpl; [|done]. by apply alter_TicketID.
    + by destruct (sold_tickets _ r_type r_cat).
  - unfold reset_database. case_decide; simpl; [|done].
    by rewrite <- list_fmap_compose.
Qed.

(** ** Reset, once more *)

Section reset.
Implicit Types (t : Ticket) (tickets : list Ticket).

Lemma reset_row_same_inventory t t' :
  same_inventory t t' → reset_row t' = reset_row t.
Proof.
  destruct t, t'. unfold same_inventory, reset_row; simpl.
  by intros (-> & -> & -> & -> & ->).
Qed.

Lemma reset_row_twice t : reset_row (reset_row t) = reset_row t.
Proof. done. Qed.

Lemma baseline_group_sums (g : list Ticket) :
  Forall baseline g → agg_sold g = 0 ∧ agg_visitors g = 0.
Proof.
  intros Hb.
  assert (agg_sold g = 0 ∧ Zsum (Visitor_Seats <$> g) = 0) as [H1 H2].
  { unfold agg_sold, Zsum.
    induction Hb as [|t g (Hs & _ & _ & Hv & _) _ [IH1 IH2]]; [done|].
    rewrite !fmap_cons. cbn [foldr]. rewrite IH1, IH2, Hs, Hv. done. }
  split; [done|]. unfold agg_visitors. by rewrite H2.
Qed.

Lemma baseline_none_sold tickets :
  Forall baseline tickets → filter (λ t, Sold t = true) tickets = [].
Proof.
  induction 1 as [|t g (Hs & _) _ IH]; [done|].
  rewrite filter_cons, decide_False by congruence. done.
Qed.

Lemma baseline_sold_tickets tickets r_type r_cat :
  Forall baseline tickets → sold_tickets tickets r_type r_cat = [].
Proof.
  unfold sold_tickets. induction 1 as [|t g (Hs & _) _ IH]; [done|].
  rewrite filter_cons, decide_False; [done|].
  rewrite Hs, andb_false_r. intros Hfalse. exact Hfalse.
Qed.
End reset.

(** X4. Reset is idempotent and forgets every sale and visit: resetting a
    second time with the same password leaves the collection as the first
    reset left it, and two collections that agree on the identifier, type,
    category, admit and sequence columns are reset to the same collection. *)
Theorem reset_database_idempotent (tickets others : list Ticket) (secret : string) :
  tickets_after (tickets_after tickets (reset_database tickets secret))
    (reset_database (tickets_after tickets (reset_database tickets secret)) secret)
  = tickets_after tickets (reset_database tickets secret) ∧
  (Forall2 same_inventory tickets others →
   reset_database others "admin123" = reset_database tickets "admin123").
Proof.
  split.
  - unfold reset_database. case_decide; simpl; [|done].
    rewrite <- list_fmap_compose.
    apply list_fmap_ext. intros i t _. apply reset_row_twice.
  - intros Hsame. unfold reset_database. rewrite !decide_True by done. f_equal.
    induction Hsame as [|t t' l l' Ht _ IH]; [done|].
    rewrite !fmap_cons, IH. f_equal. by apply reset_row_same_inventory.
Qed.

Lemma reset_database_idempotent_witness :
  reset_database
    [sell_row "Bob" "2026-01-01 10:00:00" (unsold_ticket "0001" (Some 1));
     unsold_ticket "0002" (Some 1)] "admin123"
  = reset_database scenario_inventory "admin123".
Proof.
  destruct (reset_database_idempotent scenario_inventory
              [sell_row "Bob" "2026-01-01 10:00:00" (unsold_ticket "0001" (Some 1));
               unsold_ticket "0002" (Some 1)] "admin123") as [_ Hforget].
  apply Hforget. repeat constructor.
Defined.

(** X5. After a saved reset nothing is sold: for every type and category
    the reverse-sale form has no option and a reverse sale answers "No sold
    tickets to reverse in this category", the recent-sales table is replaced
    by the "No sales recorded yet" notice, and every row of the summary has
    Tickets_Sold, Seats_sold and Total_Visitors at 0, Balance_Tickets equal
    to Total_Tickets, Balance_Seats equal to Total_Seats and Balance_Visitors
    at 0. *)
Theorem nothing_sold_after_reset (tickets wiped : list Ticket) (secret : string) :
  reset_database tickets secret = Saved wiped →
  (∀ r_type r_cat tid,
     sold_tickets wiped r_type r_cat = [] ∧
     reverse_sale wiped r_type r_cat tid = Refused NoSoldTickets) ∧
  sales_history wiped = None ∧
  Forall (λ r, Tickets_Sold r = 0 ∧ Seats_sold r = 0 ∧ Total_Visitors r = 0 ∧
               Balance_Tickets r = Total_Tickets r ∧
               Balance_Seats r = Total_Seats r ∧ Balance_Visitors r = 0)
         (summary wiped).
Proof.
  unfold reset_database. case_decide; [|done]. intros [= <-].
  assert (Forall baseline (reset_row <$> tickets)) as Hb.
  { apply Forall_fmap, Forall_forall. intros t _. apply reset_row_baseline. }
  split_and!.
  - intros. split; [by apply baseline_sold_tickets|].
    unfold reverse_sale. by rewrite baseline_sold_tickets.
  - unfold sales_history, recent_sales. by rewrite baseline_none_sold.
  - apply Forall_forall. intros r (k & _ & ->)%summary_elem.
    destruct (baseline_group_sums (group_of (reset_row <$> tickets) k))
      as [Hsold Hvis].
    { unfold group_of. rewrite Forall_forall in Hb. apply Forall_forall.
      intros t [_ Hin]%list_elem_of_filter. by apply Hb. }
    unfold summary_row.
    cbn [Tickets_Sold Seats_sold Total_Visitors Balance_Tickets Balance_Seats
         Balance_Visitors Total_Tickets Total_Seats].
    rewrite Hsold, Hvis, Z.mul_0_l, wrap64_0, !Z.sub_0_r, wrap64_twice, wrap64_0.
    done.
Qed.

Lemma nothing_sold_after_reset_witness :
  sales_history
    (reset_row <$>
       [sell_row "Bob" "2026-01-01 10:00:00" (unsold_ticket "0001" (Some 1));
        unsold_ticket "0002" (Some 1)]) = None.
Proof.
  eapply (nothing_sold_after_reset
            [sell_row "Bob" "2026-01-01 10:00:00" (unsold_ticket "0001" (Some 1));
             unsold_ticket "0002" (Some 1)] _ "admin123").
  reflexivity.
Defined.

(** ** The sale forms, once more *)

Section forms.
Implicit Types (t : Ticket) (tickets saved : list Ticket).

(** The row a saved manual sale writes, under I2. *)
Lemma saved_sale_ticket tickets s_type s_cat tid cust now saved :
  I2 tickets →
  manual_sale tickets s_type s_cat tid cust now = Saved saved →
  ∃ idx t, tickets !! idx = Some t ∧ TicketID t = tid ∧
           Type_ t = Some s_type ∧ Category t = s_cat ∧ Sold t = false ∧
           saved = alter (sell_row cust now) idx tickets.
Proof.
  intros Hu (Hin & idx & Hidx & ->)%manual_sale_Saved.
  destruct (first_index_Some _ _ _ Hidx) as (t & Ht & Hid).
  apply avail_elem in Hin as (t' & Hin' & Hid' & Hty & (c & Hc & ->) & Hs).
  assert (t' = t) as ->.
  { apply (I2_same_row tickets); eauto using list_elem_of_lookup_2 with congruence. }
  exists idx, t. by rewrite Hc.
Qed.

(** The row a saved reverse sale writes, under I2. *)
Lemma saved_reversal_ticket tickets r_type r_cat tid saved :
  I2 tickets →
  reverse_sale tickets r_type r_cat tid = Saved saved →
  ∃ idx t, tickets !! idx = Some t ∧ TicketID t = tid ∧
           Type_ t = Some r_type ∧ Category t = r_cat ∧ Sold t = true ∧
           saved = alter reverse_row idx tickets.
Proof.
  intros Hu (Hin & idx & Hidx & ->)%reverse_sale_Saved.
  destruct (first_index_Some _ _ _ Hidx) as (t & Ht & Hid).
  apply sold_tickets_elem in Hin as (t' & Hin' & Hid' & Hty & (c & Hc & ->) & Hs).
  assert (t' = t) as ->.
  { apply (I2_same_row tickets); eauto using list_elem_of_lookup_2 with congruence. }
  exists idx, t. by rewrite Hc.
Qed.

(** Rows with another identifier are the same before and after a write. *)
Lemma alter_elem_other (f : Ticket → Ticket) idx tickets t x :
  tickets !! idx = Some t → TicketID (f t) = TicketID t →
  TicketID x ≠ TicketID t →
  x ∈ alter f idx tickets ↔ x ∈ tickets.
Proof.
  intros Ht Hf Hne. rewrite !list_elem_of_lookup. split; intros [i Hi]; exists i.
  - destruct (decide (idx = i)) as [->|Hd].
    + rewrite list_lookup_alter_eq, Ht in Hi. simpl in Hi. congruence.
    + by rewrite list_lookup_alter_ne in Hi.
  - destruct (decide (idx = i)) as [->|Hd]; [congruence|].
    by rewrite list_lookup_alter_ne.
Qed.

Lemma unsold_not_listed_for_reversal tickets r_type r_cat t :
  I2 tickets → t ∈ tickets → Sold t = false →
  TicketID t ∉ sold_tickets tickets r_type r_cat.
Proof.
  intros Hu Hin Hs (t' & Hin' & Hid & _ & _ & Hs')%sold_tickets_elem.
  assert (t' = t) as -> by eauto using I2_same_row. congruence.
Qed.

Lemma avail_other (f : Ticket → Ticket) idx tickets t s_type s_cat other :
  tickets !! idx = Some t → TicketID (f t) = TicketID t → other ≠ TicketID t →
  other ∈ avail (alter f idx tickets) s_type s_cat ↔
  other ∈ avail tickets s_type s_cat.
Proof.
  intros Ht Hf Hne. rewrite !avail_elem.
  split; intros (x & Hx & Hid & Hrest); exists x; (split; [|done]);
    eapply alter_elem_other; eauto; congruence.
Qed.

Lemma sold_tickets_other (f : Ticket → Ticket) idx tickets t r_type r_cat other :
  tickets !! idx = Some t → TicketID (f t) = TicketID t → other ≠ TicketID t →
  other ∈ sold_tickets (alter f idx tickets) r_type r_cat ↔
  other ∈ sold_tickets tickets r_type r_cat.
Proof.
  intros Ht Hf Hne. rewrite !sold_tickets_elem.
  split; intros (x & Hx & Hid & Hrest); exists x; (split; [|done]);
    eapply alter_elem_other; eauto; congruence.
Qed.
End forms.

(** X6. Each of the two forms saves exactly when the identifier submitted
    is among the options of its select box, and the lookup
    [tickets.index[...][0]] behind the Confirm button never raises
    IndexError. *)
Theorem forms_save_exactly_the_listed
    (tickets : list Ticket) (ty : string) (cat : option string)
    (tid cust now : string) :
  (tid ∈ avail tickets ty cat ↔
   ∃ saved, manual_sale tickets ty cat tid cust now = Saved saved) ∧
  (tid ∈ sold_tickets tickets ty cat ↔
   ∃ saved, reverse_sale tickets ty cat tid = Saved saved) ∧
  manual_sale tickets ty cat tid cust now ≠ Refused IndexError ∧
  reverse_sale tickets ty cat tid ≠ Refused IndexError.
Proof.
  assert (tid ∈ avail tickets ty cat → is_Some (first_index tickets tid)) as Ha.
  { intros (t & Hin & Hid & _)%avail_elem. by eapply listed_is_found. }
  assert (tid ∈ sold_tickets tickets ty cat → is_Some (first_index tickets tid))
    as Hs.
  { intros (t & Hin & Hid & _)%sold_tickets_elem. by eapply listed_is_found. }
  split_and!.
  - split.
    + intros Hin. rewrite manual_sale_cases, decide_True by done.
      destruct (Ha Hin) as [idx ->]. eauto.
    + intros [saved H]. by apply manual_sale_Saved in H as [? _].
  - split.
    + intros Hin. rewrite reverse_sale_cases, decide_True by done.
      destruct (Hs Hin) as [idx ->]. eauto.
    + intros [saved H]. by apply reverse_sale_Saved in H as [? _].
  - rewrite manual_sale_cases. case_decide as Hin.
    + by destruct (Ha Hin) as [idx ->].
    + by destruct (avail tickets ty cat).
  - rewrite reverse_sale_cases. case_decide as Hin.
    + by destruct (Hs Hin) as [idx ->].
    + by destruct (sold_tickets tickets ty cat).
Qed.

Lemma forms_save_exactly_the_listed_witness :
  ∃ saved, manual_sale scenario_inventory "Public" (Some "GA") "0002" "Dan"
             "2026-01-01 11:00:00" = Saved saved.
Proof.
  apply (forms_save_exactly_the_listed scenario_inventory "Public" (Some "GA")
           "0002" "Dan" "2026-01-01 11:00:00").
  apply (bool_decide_unpack _). vm_compute. exact I.
Defined.

(** X7. In an inventory with unique identifiers a reverse sale of a ticket
    that is not sold is refused (the form does not list it), whatever type
    and category are selected, and the collection stays as it is. *)
Theorem reverse_sale_of_unsold_ticket_refused
    (tickets : list Ticket) (t : Ticket) (r_type : string) (r_cat : option string) :
  I2 tickets → t ∈ tickets → Sold t = false →
  ∃ n, reverse_sale tickets r_type r_cat (TicketID t) = Refused n ∧
       (n = NoSoldTickets ∨ n = NotAnOption) ∧
       tickets_after tickets (reverse_sale tickets r_type r_cat (TicketID t))
       = tickets.
Proof.
  intros Hu Hin Hs. rewrite reverse_sale_cases.
  rewrite decide_False by eauto using unsold_not_listed_for_reversal.
  destruct (sold_tickets tickets r_type r_cat); eauto.
Qed.

Lemma reverse_sale_of_unsold_ticket_refused_witness :
  ∃ n, reverse_sale scenario_inventory "Public" (Some "GA") "0001" = Refused n ∧
       (n = NoSoldTickets ∨ n = NotAnOption) ∧
       tickets_after scenario_inventory
         (reverse_sale scenario_inventory "Public" (Some "GA") "0001")
       = scenario_inventory.
Proof.
  apply (reverse_sale_of_unsold_ticket_refused scenario_inventory
           (unsold_ticket "0001" (Some 1)) "Public" (Some "GA")).
  - apply (bool_decide_unpack _). vm_compute. exact I.
  - apply (bool_decide_unpack _). vm_compute. exact I.
  - reflexivity.
Defined.

(** X8. An identifier that no ticket carries is refused by both forms, with
    any type, category and customer, and nothing is written. *)
Theorem unknown_identifier_refused
    (tickets : list Ticket) (ty : string) (cat : option string)
    (tid cust now : string) :
  tid ∉ TicketID <$> tickets →
  (∃ n, manual_sale tickets ty cat tid cust now = Refused n ∧
        (n = NoAvailableTickets ∨ n = NotAnOption)) ∧
  (∃ n, reverse_sale tickets ty cat tid = Refused n ∧
        (n = NoSoldTickets ∨ n = NotAnOption)).
Proof.
  intros Hnot. split.
  - rewrite manual_sale_cases, decide_False.
    + destruct (avail tickets ty cat); eauto.
    + intros (t & Hin & <- & _)%avail_elem. apply Hnot.
      by apply list_elem_of_fmap_2.
  - rewrite reverse_sale_cases, decide_False.
    + destruct (sold_tickets tickets ty cat); eauto.
    + intros (t & Hin & <- & _)%sold_tickets_elem. apply Hnot.
      by apply list_elem_of_fmap_2.
Qed.

Lemma unknown_identifier_refused_witness :
  ∃ n, manual_sale scenario_inventory "Public" (Some "GA") "0009" "Eve"
         "2026-01-01 12:00:00" = Refused n ∧
       (n = NoAvailableTickets ∨ n = NotAnOption).
Proof.
  apply (unknown_identifier_refused scenario_inventory "Public" (Some "GA")
           "0009" "Eve" "2026-01-01 12:00:00").
  apply (bool_decide_unpack _). vm_compute. exact I.
Defined.

(** X9. A saved manual sale, identifiers being unique, is the sale of an
    unsold ticket of the selected type and category: that ticket becomes
    sold to the customer entered with the timestamp of the sale, while its
    Visited flag, its Visitor_Seats and its identifier, type, category,
    admit and sequence columns keep their values. *)
Theorem manual_sale_effect
    (tickets saved : list Ticket) (s_type : string) (s_cat : option string)
    (tid cust now : string) :
  I2 tickets →
  manual_sale tickets s_type s_cat tid cust now = Saved saved →
  ∃ idx t t1,
    tickets !! idx = Some t ∧ saved !! idx = Some t1 ∧
    TicketID t = tid ∧ Type_ t = Some s_type ∧ Category t = s_cat ∧
    Sold t = false ∧
    Sold t1 = true ∧ Customer t1 = cust ∧ Timestamp t1 = Some now ∧
    Visited t1 = Visited t ∧ Visitor_Seats t1 = Visitor_Seats t ∧
    same_inventory t t1.
Proof.
  intros Hu Hsale.
  destruct (saved_sale_ticket _ _ _ _ _ _ _ Hu Hsale)
    as (idx & t & Ht & Hid & Hty & Hc & Hs & ->).
  exists idx, t, (sell_row cust now t).
  rewrite list_lookup_alter_eq, Ht. split_and!; try done.
Qed.

Lemma manual_sale_effect_witness :
  ∃ idx t t1,
    scenario_inventory !! idx = Some t ∧
    tickets_after scenario_inventory
      (manual_sale scenario_inventory "Public" (Some "GA") "0001" "Bob"
         "2026-01-01 10:00:00") !! idx = Some t1 ∧
    TicketID t = "0001" ∧ Type_ t = Some "Public" ∧ Category t = Some "GA" ∧
    Sold t = false ∧
    Sold t1 = true ∧ Customer t1 = "Bob" ∧
    Timestamp t1 = Some "2026-01-01 10:00:00" ∧
    Visited t1 = Visited t ∧ Visitor_Seats t1 = Visitor_Seats t ∧
    same_inventory t t1.
Proof.
  apply (manual_sale_effect scenario_inventory _ "Public" (Some "GA") "0001"
           "Bob" "2026-01-01 10:00:00").
  - apply (bool_decide_unpack _). vm_compute. exact I.
  - reflexivity.
Defined.

(** X10. A saved reverse sale, identifiers being unique, is the reversal of
    a sold ticket of the selected type and category, and it leaves that
    ticket at the unsold baseline whatever its customer, visit and timestamp
    columns held before (also when the ticket had been checked in); its
    identifier, type, category, admit and sequence columns keep their
    values. *)
Theorem reverse_sale_effect
    (tickets saved : list Ticket) (r_type : string) (r_cat : option string)
    (tid : string) :
  I2 tickets →
  reverse_sale tickets r_type r_cat tid = Saved saved →
  ∃ idx t t1,
    tickets !! idx = Some t ∧ saved !! idx = Some t1 ∧
    TicketID t = tid ∧ Type_ t = Some r_type ∧ Category t = r_cat ∧
    Sold t = true ∧ baseline t1 ∧ same_inventory t t1.
Proof.
  intros Hu Hrev.
  destruct (saved_reversal_ticket _ _ _ _ _ Hu Hrev)
    as (idx & t & Ht & Hid & Hty & Hc & Hs & ->).
  exists idx, t, (reverse_row t).
  rewrite list_lookup_alter_eq, Ht. split_and!; try done.
Qed.

Lemma reverse_sale_effect_witness :
  ∃ idx t t1,
    [checkin_row 2 (sell_row "Bob" "2026-01-01 10:00:00"
                      (unsold_ticket "0001" (Some 1)));
     unsold_ticket "0002" (Some 1)] !! idx = Some t ∧
    tickets_after
      [checkin_row 2 (sell_row "Bob" "2026-01-01 10:00:00"
                        (unsold_ticket "0001" (Some 1)));
       unsold_ticket "0002" (Some 1)]
      (reverse_sale
         [checkin_row 2 (sell_row "Bob" "2026-01-01 10:00:00"
                           (unsold_ticket "0001" (Some 1)));
          unsold_ticket "0002" (Some 1)] "Public" (Some "GA") "0001") !! idx
    = Some t1 ∧
    TicketID t = "0001" ∧ Type_ t = Some "Public" ∧ Category t = Some "GA" ∧
    Sold t = true ∧ baseline t1 ∧ same_inventory t t1.
Proof.
  apply (reverse_sale_effect
           [checkin_row 2 (sell_row "Bob" "2026-01-01 10:00:00"
                             (unsold_ticket "0001" (Some 1)));
            unsold_ticket "0002" (Some 1)] _ "Public" (Some "GA") "0001").
  - apply (bool_decide_unpack _). vm_compute. exact I.
  - reflexivity.
Defined.

(** X11. After a saved manual sale, identifiers being unique, the ticket
    sold is no longer offered by the sale form under any type and category
    and is offered by the reverse-sale form under the type and category it
    was sold under; for every other identifier the options of both forms
    are what they were. *)
Theorem options_after_manual_sale
    (tickets saved : list Ticket) (s_type : string) (s_cat : option string)
    (tid cust now : string) :
  I2 tickets →
  manual_sale tickets s_type s_cat tid cust now = Saved saved →
  (∀ ty cat, tid ∉ avail saved ty cat) ∧
  tid ∈ sold_tickets saved s_type s_cat ∧
  (∀ other ty cat, other ≠ tid →
     (other ∈ avail saved ty cat ↔ other ∈ avail tickets ty cat) ∧
     (other ∈ sold_tickets saved ty cat ↔ other ∈ sold_tickets tickets ty cat)).
Proof.
  intros Hu Hsale.
  destruct (saved_sale_ticket _ _ _ _ _ _ _ Hu Hsale)
    as (idx & t & Ht & <- & Hty & <- & Hs & ->).
  assert (alter (sell_row cust now) idx tickets !! idx
          = Some (sell_row cust now t)) as Ht1
    by by rewrite list_lookup_alter_eq, Ht.
  assert (sell_row cust now t ∈ alter (sell_row cust now) idx tickets) as Hin
    by eauto using list_elem_of_lookup_2.
  split_and!.
  - intros ty cat.
    apply (sold_not_avail _ ty cat (sell_row cust now t)); try done.
    by apply alter_I2.
  - apply sold_tickets_elem. exists (sell_row cust now t).
    assert (TicketID t ∈ avail tickets s_type (Category t)) as Ha
      by by apply manual_sale_Saved in Hsale as [? _].
    apply avail_elem in Ha as (_ & _ & _ & _ & (c & _ & Hc) & _).
    split_and!; try done. by exists c.
  - intros other ty cat Hne. split.
    + by apply (avail_other _ _ _ t).
    + by apply (sold_tickets_other _ _ _ t).
Qed.

Lemma options_after_manual_sale_witness :
  (∀ ty cat,
     "0001" ∉ avail
       (tickets_after scenario_inventory
          (manual_sale scenario_inventory "Public" (Some "GA") "0001" "Bob"
             "2026-01-01 10:00:00")) ty cat) ∧
  "0001" ∈ sold_tickets
    (tickets_after scenario_inventory
       (manual_sale scenario_inventory "Public" (Some "GA") "0001" "Bob"
          "2026-01-01 10:00:00")) "Public" (Some "GA").
Proof.
  assert (I2 scenario_inventory) as Hu.
  { apply (bool_decide_unpack _). vm_compute. exact I. }
  destruct (options_after_manual_sale scenario_inventory _ "Public" (Some "GA")
              "0001" "Bob" "2026-01-01 10:00:00" Hu eq_refl) as (Hno & Hyes & _).
  split; [exact Hno|exact Hyes].
Defined.

(** X12. After a saved reverse sale, identifiers being unique, the ticket
    is offered again by the sale form under the type and category it was
    reversed under and is no longer offered by the reverse-sale form under
    any; for every other identifier the options of both forms are what they
    were. *)
Theorem options_after_reverse_sale
    (tickets saved : list Ticket) (r_type : string) (r_cat : option string)
    (tid : string) :
  I2 tickets →
  reverse_sale tickets r_type r_cat tid = Saved saved →
  tid ∈ avail saved r_type r_cat ∧
  (∀ ty cat, tid ∉ sold_tickets saved ty cat) ∧
  (∀ other ty cat, other ≠ tid →
     (other ∈ avail saved ty cat ↔ other ∈ avail tickets ty cat) ∧
     (other ∈ sold_tickets saved ty cat ↔ other ∈ sold_tickets tickets ty cat)).
Proof.
  intros Hu Hrev.
  assert (tid ∈ sold_tickets tickets r_type r_cat) as Hlisted
    by by apply reverse_sale_Saved in Hrev as [? _].
  destruct (saved_reversal_ticket _ _ _ _ _ Hu Hrev)
    as (idx & t & Ht & <- & Hty & <- & Hs & ->).
  assert (alter reverse_row idx tickets !! idx = Some (reverse_row t)) as Ht1
    by by rewrite list_lookup_alter_eq, Ht.
  assert (reverse_row t ∈ alter reverse_row idx tickets) as Hin
    by eauto using list_elem_of_lookup_2.
  split_and!.
  - apply avail_elem. exists (reverse_row t).
    apply sold_tickets_elem in Hlisted as (_ & _ & _ & _ & (c & _ & Hc) & _).
    split_and!; try done. by exists c.
  - intros ty cat.
    apply (unsold_not_listed_for_reversal _ ty cat (reverse_row t)); try done.
    by apply alter_I2.
  - intros other ty cat Hne. split.
    + by apply (avail_other _ _ _ t).
    + by apply (sold_tickets_other _ _ _ t).
Qed.

Lemma options_after_reverse_sale_witness :
  "0001" ∈ avail
    (tickets_after
       [sell_row "Bob" "2026-01-01 10:00:00" (unsold_ticket "0001" (Some 1));
        unsold_ticket "0002" (Some 1)]
       (reverse_sale
          [sell_row "Bob" "2026-01-01 10:00:00" (unsold_ticket "0001" (Some 1));
           unsold_ticket "0002" (Some 1)] "Public" (Some "GA") "0001"))
    "Public" (Some "GA").
Proof.
  assert (I2 [sell_row "Bob" "2026-01-01 10:00:00"
                (unsold_ticket "0001" (Some 1));
              unsold_ticket "0002" (Some 1)]) as Hu.
  { apply (bool_decide_unpack _). vm_compute. exact I. }
  destruct (options_after_reverse_sale _ _ "Public" (Some "GA") "0001" Hu eq_refl)
    as (Hyes & _).
  exact Hyes.
Defined.

(** ** Sorting and mapping *)

Section merge_sort_fmap.
Context {A B : Type} (f : A → B) (RA : relation A) (RB : relation B).
Context `{∀ x y, Decision (RA x y)} `{∀ x y, Decision (RB x y)}.
Hypothesis order_kept : ∀ x y, RA x y ↔ RB (f x) (f y).

Local Abbreviation stack_fmap st :=
  (fmap (M:=list) (fmap (M:=option) (fmap (M:=list) f)) st).

Lemma list_merge_fmap (l1 l2 : list A) :
  list_merge RB (f <$> l1) (f <$> l2) = f <$> list_merge RA l1 l2.
Proof.
  revert l2. induction l1 as [|x1 l1 IH1]; intros l2; [by destruct l2|].
  induction l2 as [|x2 l2 IH2]; [done|].
  rewrite !fmap_cons. simpl.
  destruct (decide (RA x1 x2)) as [Hr|Hr].
  - rewrite decide_True by by apply order_kept.
    rewrite fmap_cons. f_equal. apply (IH1 (x2 :: l2)).
  - rewrite decide_False by by rewrite <- order_kept.
    rewrite fmap_cons. f_equal. apply IH2.
Qed.

Lemma merge_list_to_stack_fmap (st : list (option (list A))) (l : list A) :
  merge_list_to_stack RB (stack_fmap st) (f <$> l)
  = stack_fmap (merge_list_to_stack RA st l).
Proof.
  revert l. induction st as [|[l'|] st IH]; intros l; simpl; [done| |done].
  by rewrite list_merge_fmap, IH.
Qed.

Lemma merge_stack_fmap (st : list (option (list A))) :
  merge_stack RB (stack_fmap st) = f <$> merge_stack RA st.
Proof.
  induction st as [|[l'|] st IH]; [done| |exact IH].
  change (list_merge RB (f <$> l') (merge_stack RB (stack_fmap st))
          = f <$> list_merge RA l' (merge_stack RA st)).
  by rewrite IH, list_merge_fmap.
Qed.

Lemma merge_sort_aux_fmap (st : list (option (list A))) (l : list A) :
  merge_sort_aux RB (stack_fmap st) (f <$> l)
  = f <$> merge_sort_aux RA st l.
Proof.
  revert st. induction l as [|x l IH]; intros st; simpl.
  - apply merge_stack_fmap.
  - rewrite <- IH. f_equal. apply (merge_list_to_stack_fmap st [x]).
Qed.

(** Sorting the images is the image of sorting, when the map keeps the
    order. *)
Lemma merge_sort_fmap (l : list A) :
  merge_sort RB (f <$> l) = f <$> merge_sort RA l.
Proof. apply (merge_sort_aux_fmap [] l). Qed.
End merge_sort_fmap.

(** ** The summary as a function of the inventory *)

Section layout.
Implicit Types (t : Ticket) (df tickets : list Ticket) (k : GroupKey).

(** The summary is the list of the group rows, in the display order of
    their keys. *)
Lemma summary_by_keys tickets :
  summary tickets
  = (λ k, summary_row k (group_of tickets k)) <$> display_keys tickets.
Proof.
  unfold summary, custom_sort, grouped, display_keys.
  apply merge_sort_fmap. intros k1 k2. by destruct k1, k2.
Qed.

Lemma same_inventory_group_key t t' :
  same_inventory t t' → group_key t' = group_key t.
Proof.
  intros (_ & Hty & Hc & Ha & Hs). unfold group_key. by rewrite Hty, Hc, Ha, Hs.
Qed.

Lemma same_inventory_group_keys tickets tickets' :
  Forall2 same_inventory tickets tickets' →
  group_keys tickets' = group_keys tickets.
Proof.
  intros Hsame. unfold group_keys. do 2 f_equal.
  induction Hsame as [|t t' l l' Ht _ IH]; [done|].
  change (match group_key t' with
          | Some k => k :: omap group_key l'
          | None => omap group_key l'
          end
          = match group_key t with
            | Some k => k :: omap group_key l
            | None => omap group_key l
            end).
  by rewrite (same_inventory_group_key t t'), IH.
Qed.

Lemma same_inventory_agg_count tickets tickets' k :
  Forall2 same_inventory tickets tickets' →
  agg_count (group_of tickets' k) = agg_count (group_of tickets k).
Proof.
  intros Hsame. unfold agg_count, group_of. f_equal.
  induction Hsame as [|t t' l l' Ht _ IH]; [done|].
  rewrite !filter_cons, (same_inventory_group_key t t') by done.
  case_decide; simpl; by rewrite IH.
Qed.

Lemma same_inventory_refl tickets : Forall2 same_inventory tickets tickets.
Proof. apply Forall_Forall2_diag, Forall_forall. by intros t _. Qed.

Lemma alter_same_inventory (f : Ticket → Ticket) idx tickets :
  (∀ t, same_inventory t (f t)) →
  Forall2 same_inventory tickets (alter f idx tickets).
Proof.
  intros Hf. revert idx. induction tickets as [|t l IH]; intros [|idx]; simpl.
  - constructor.
  - constructor.
  - constructor; [apply Hf|apply same_inventory_refl].
  - constructor; [by repeat split|apply IH].
Qed.

Lemma same_inventory_layout tickets tickets' :
  Forall2 same_inventory tickets tickets' → layout tickets' = layout tickets.
Proof.
  intros Hsame. unfold layout. rewrite !summary_by_keys.
  unfold display_keys. rewrite (same_inventory_group_keys _ _ Hsame).
  rewrite <- !list_fmap_compose. apply list_fmap_ext. intros i k _. simpl.
  rewrite !row_key_summary_row. by rewrite (same_inventory_agg_count _ _ _ Hsame).
Qed.
End layout.

(** X13. The rows of the summary, their order, their Total_Tickets and
    their Total_Seats depend only on the identifier, type, category, admit
    and sequence columns: two collections that agree on these columns have
    the same layout, and no manual sale, reverse sale or reset, saved or
    refused, changes it. *)
Theorem summary_layout_kept (tickets : list Ticket) :
  (∀ others, Forall2 same_inventory tickets others →
             layout others = layout tickets) ∧
  (∀ s_type s_cat tid cust now,
     layout (tickets_after tickets
               (manual_sale tickets s_type s_cat tid cust now))
     = layout tickets) ∧
  (∀ r_type r_cat tid,
     layout (tickets_after tickets (reverse_sale tickets r_type r_cat tid))
     = layout tickets) ∧
  (∀ secret,
     layout (tickets_after tickets (reset_database tickets secret))
     = layout tickets).
Proof.
  split_and!.
  - apply same_inventory_layout.
  - intros. apply same_inventory_layout. rewrite manual_sale_cases. case_decide.
    + destruct (first_index tickets tid); simpl;
        [|apply same_inventory_refl].
      apply alter_same_inventory. intros t. apply sell_row_inventory.
    + destruct (avail tickets s_type s_cat); apply same_inventory_refl.
  - intros. apply same_inventory_layout. rewrite reverse_sale_cases. case_decide.
    + destruct (first_index tickets tid); simpl;
        [|apply same_inventory_refl].
      apply alter_same_inventory. intros t. apply reverse_row_inventory.
    + destruct (sold_tickets tickets r_type r_cat); apply same_inventory_refl.
  - intros. apply same_inventory_layout. unfold reset_database.
    case_decide; simpl; [|apply same_inventory_refl].
    apply Forall2_fmap_r, Forall_Forall2_diag, Forall_forall.
    intros t _. by repeat split.
Qed.

Lemma summary_layout_kept_witness :
  layout [sell_row "Bob" "2026-01-01 10:00:00" (unsold_ticket "0001" (Some 1));
          unsold_ticket "0002" (Some 1)]
  = layout scenario_inventory.
Proof.
  apply (summary_layout_kept scenario_inventory). repeat constructor.
Defined.

(** ** The summary after a sale and after a reversal *)

Section summary_updates.
Implicit Types (t : Ticket) (tickets : list Ticket) (k : GroupKey).


End summary_updates.





(** ** Bounds and totals *)

Section totals.
Implicit Types (t : Ticket) (df tickets g : list Ticket) (k : GroupKey)
               (ks : list GroupKey).






(** In a group whose tickets record visitor seats between 0 and what they
    admit if sold, and none if unsold, the visitor seats add up to at most
    the seats sold. *)
Lemma group_visitors_bound (a : Z) g :
  Forall (λ t, 0 ≤ Visitor_Seats t ≤ if Sold t then a else 0) g →
  0 ≤ Zsum (Visitor_Seats <$> g) ≤ agg_sold g * a ∧
  (agg_sold g = 0 ∨ 0 ≤ a) ∧ 0 ≤ agg_sold g.
Proof.
  unfold agg_sold, Zsum.
  induction 1 as [|t g Ht _ IH]; [simpl; lia|].
  rewrite !fmap_cons. cbn [foldr]. destruct (Sold t); nia.
Qed.

Lemma group_of_Admit tickets k t :
  t ∈ group_of tickets k → t ∈ tickets ∧ Admit t = kAdmit k.
Proof.
  unfold group_of. intros [Hk Hin]%list_elem_of_filter. split; [done|].
  unfold group_key in Hk.
  destruct (Seq t), (Type_ t), (Category t); simplify_eq/=. done.
Qed.

End totals.

(** X16. In every row of the summary Total_Tickets is at least 1, and
    Tickets_Sold and Balance_Tickets lie between 0 and Total_Tickets; when
    the Admit of the row is not negative and Total_Tickets x Admit fits an
    int64 cell, Seats_sold and Balance_Seats lie between 0 and
    Total_Seats. *)
Theorem summary_row_bounds (tickets : list Ticket) :
  Forall (λ r, 1 ≤ Total_Tickets r ∧
               0 ≤ Tickets_Sold r ≤ Total_Tickets r ∧
               0 ≤ Balance_Tickets r ≤ Total_Tickets r ∧
               (0 ≤ row_Admit r →
                in_int64 (Total_Tickets r * row_Admit r) →
                0 ≤ Seats_sold r ≤ Total_Seats r ∧
                0 ≤ Balance_Seats r ≤ Total_Seats r))
         (summary tickets).
Proof.
  apply Forall_forall. intros r (k & Hk & ->)%summary_elem.
  pose proof (summary_row_equations tickets k Hk) as Heq.
  revert Heq. generalize (summary_row k (group_of tickets k)). intros r.
  unfold group_equations. set (g := filter (counted_in r) tickets).
  intros (Hne & HT & HS & _ & HTS & HSS & HBT & HBS & _).
  pose proof (length_filter (λ t, Sold t = true) g) as Hle.
  assert (length g ≠ 0%nat) as Hpos by by destruct g.
  split_and!; try lia. intros Hadm Hfit.
  assert (0 ≤ Tickets_Sold r * row_Admit r
          ≤ Total_Tickets r * row_Admit r) as Hprod by nia.
  assert (Total_Seats r = Total_Tickets r * row_Admit r) as HTS'
    by (rewrite HTS; by apply wrap64_small).
  assert (Seats_sold r = Tickets_Sold r * row_Admit r) as HSS'.
  { rewrite HSS. apply wrap64_small. unfold in_int64 in *. lia. }
  assert (Balance_Seats r
          = Total_Tickets r * row_Admit r - Tickets_Sold r * row_Admit r)
    as HBS'.
  { rewrite HBS, HTS', HSS'. apply wrap64_small. unfold in_int64 in *. lia. }
  lia.
Qed.

Lemma summary_row_bounds_witness :
  0 ≤ Seats_sold (unsold_row 1 2) ≤ Total_Seats (unsold_row 1 2) ∧
  0 ≤ Balance_Seats (unsold_row 1 2) ≤ Total_Seats (unsold_row 1 2).
Proof.
  pose proof (summary_row_bounds scenario_inventory) as Hall.
  apply Forall_cons in Hall as [(_ & _ & _ & Hseats) _].
  apply Hseats; vm_compute; [discriminate|split; [discriminate|reflexivity]].
Defined.

(** X17. When every ticket has between 0 and Admit visitor seats recorded
    if it is sold, and none if it is unsold, Balance_Visitors lies between 0
    and Seats_sold in every row whose Total_Tickets x Admit fits an int64
    cell. *)
Theorem Balance_Visitors_bounds (tickets : list Ticket) :
  Forall (λ t, 0 ≤ Visitor_Seats t ≤ if Sold t then Admit t else 0) tickets →
  Forall (λ r, in_int64 (Total_Tickets r * row_Admit r) →
               0 ≤ Balance_Visitors r ≤ Seats_sold r)
         (summary tickets).
Proof.
  intros Hall. rewrite Forall_forall in Hall. apply Forall_forall.
  intros r (k & Hk & ->)%summary_elem.
  destruct (group_visitors_bound (kAdmit k) (group_of tickets k))
    as (Hsum & Hsign & Hsold).
  { apply Forall_forall. intros t [Hin <-]%group_of_Admit. by apply Hall. }
  pose proof (agg_sold_count (group_of tickets k)) as Hcount.
  pose proof (length_filter (λ t, Sold t = true) (group_of tickets k)) as Hle.
  unfold summary_row.
  cbn [Total_Tickets row_Admit Balance_Visitors Seats_sold].
  unfold agg_visitors, agg_count. intros Hfit.
  assert (0 ≤ agg_sold (group_of tickets k) * kAdmit k < 2 ^ 63) as Hprod.
  { unfold in_int64 in Hfit. destruct Hsign as [H0|Ha]; [rewrite H0; lia|nia]. }
  rewrite (wrap64_small (Zsum _)) by (unfold in_int64; lia).
  rewrite (wrap64_small (agg_sold _ * _)) by (unfold in_int64; lia).
  rewrite wrap64_small by (unfold in_int64; lia). lia.
Qed.

Lemma Balance_Visitors_bounds_witness :
  Forall (λ r, in_int64 (Total_Tickets r * row_Admit r) →
               0 ≤ Balance_Visitors r ≤ Seats_sold r)
    (summary [checkin_row 2 (sell_row "Bob" "2026-01-01 10:00:00"
                               (unsold_ticket "0001" (Some 1)));
              unsold_ticket "0002" (Some 1)]).
Proof.
  apply (Balance_Visitors_bounds
           [checkin_row 2 (sell_row "Bob" "2026-01-01 10:00:00"
                             (unsold_ticket "0001" (Some 1)));
            unsold_ticket "0002" (Some 1)]).
  repeat constructor; simpl; lia.
Defined.



(** X19. A row whose Seq is 0 has the sort key 10 and a row with another
    Seq the key int(Seq): of two rows with non-zero Seq the one with the
    smaller int(Seq) stands above the other, so rows whose Seq are non-zero
    integers stand in increasing order of Seq, negative values first (rows
    with the same int(Seq), such as 2.1 and 2.9, have the same key); a row
    whose Seq is 0 stands above every row whose Seq is 11 or more. *)
Theorem summary_order_by_Seq (tickets : list Ticket) :
  (∀ a b, row_Seq a ≠ Qc_of_Z 0 → row_Seq b ≠ Qc_of_Z 0 →
          py_int (row_Seq a) < py_int (row_Seq b) →
          appears_after (summary tickets) b a) ∧
  (∀ a b x y, row_Seq a = Qc_of_Z x → row_Seq b = Qc_of_Z y →
              x ≠ 0 → y ≠ 0 → x < y →
              appears_after (summary tickets) b a) ∧
  (∀ r0 r, row_Seq r0 = Qc_of_Z 0 → (Qc_of_Z 11 ≤ row_Seq r)%Qc →
           appears_after (summary tickets) r r0).
Proof.
  split_and!.
  - intros a b Ha Hb Hlt. apply sorted_appears_after; [apply custom_sort_sorted|].
    by rewrite !sort_key_nonzero.
  - intros a b x y Ha Hb Hx Hy Hlt.
    apply sorted_appears_after; [apply custom_sort_sorted|].
    rewrite Ha, Hb, !sort_key_of_Z by done. done.
  - intros r0 r H0 Hr. apply sorted_appears_after; [apply custom_sort_sorted|].
    rewrite H0, sort_key_zero, sort_key_nonzero.
    + pose proof (py_int_ge (row_Seq r) 11 ltac:(lia) Hr). lia.
    + intros Heq. rewrite Heq in Hr. revert Hr.
      unfold Qcle, Qle. simpl. lia.
Qed.

Lemma summary_order_by_Seq_witness :
  appears_after
    (summary [unsold_ticket "0001" (Some 12); unsold_ticket "0002" (Some 0);
              unsold_ticket "0003" (Some (-1))])
    (unsold_row 12 1) (unsold_row 0 1).
Proof.
  destruct (summary_order_by_Seq
              [unsold_ticket "0001" (Some 12); unsold_ticket "0002" (Some 0);
               unsold_ticket "0003" (Some (-1))]) as (_ & _ & Hzero).
  apply Hzero; [reflexivity|]. unfold Qcle, Qle. simpl. lia.
Defined.

(** X20. The summary has exactly one row for each complete key that occurs
    in the collection: the keys of its rows are pairwise distinct, a key has
    a row exactly when some ticket carries it, and a ticket whose Seq, Type
    or Category is missing is counted in no row. *)
Theorem summary_one_row_per_group (tickets : list Ticket) :
  NoDup (row_key <$> summary tickets) ∧
  (∀ k, k ∈ row_key <$> summary tickets ↔
        ∃ t, t ∈ tickets ∧ group_key t = Some k) ∧
  length (summary tickets) = length (remove_dups (omap group_key tickets)) ∧
  (∀ t r, r ∈ summary tickets → t ∈ group_of tickets (row_key r) →
          Seq t = Some (row_Seq r) ∧ Type_ t = Some (row_Type r) ∧
          Category t = Some (row_Category r) ∧ Admit t = row_Admit r).
Proof.
  split_and!.
  - apply summary_keys_NoDup.
  - intros k. rewrite list_elem_of_fmap. split.
    + intros (r & -> & (k' & Hk & ->)%summary_elem).
      rewrite row_key_summary_row. by apply group_keys_elem.
    + intros Ht%group_keys_elem. exists (summary_row k (group_of tickets k)).
      split; [by rewrite row_key_summary_row|]. apply summary_elem. eauto.
  - rewrite summary_Permutation. unfold grouped. rewrite length_fmap.
    by rewrite group_keys_Permutation.
  - intros t r (k & _ & ->)%summary_elem. rewrite row_key_summary_row.
    unfold group_of. intros [Hk _]%list_elem_of_filter. unfold group_key in Hk.
    destruct (Seq t), (Type_ t), (Category t); simplify_eq/=. done.
Qed.

Lemma summary_one_row_per_group_witness :
  ∃ t, t ∈ scenario_inventory ∧
       group_key t = Some (mkKey 1 "Public" "GA" 2).
Proof.
  apply (summary_one_row_per_group scenario_inventory).
  apply (bool_decide_unpack _). vm_compute. exact I.
Defined.

(** ** Recent sales history *)

Section recent.
Implicit Types (t : Ticket) (tickets : list Ticket).

Global Instance newer_first_trans : Transitive newer_first.
Proof.
  intros a b c. unfold newer_first.
  destruct (Timestamp a), (Timestamp b), (Timestamp c); try done.
  intros Hab Hbc. by etrans.
Qed.

Global Instance newer_first_total : Total newer_first.
Proof.
  intros a b. unfold newer_first.
  destruct (Timestamp a) as [x|], (Timestamp b) as [y|]; auto.
  destruct (total String.le x y); auto.
Qed.

Lemma recent_sales_Permutation tickets :
  recent_sales tickets ≡ₚ filter (λ t, Sold t = true) tickets.
Proof. apply merge_sort_Permutation. Qed.

Lemma recent_sales_sorted tickets :
  StronglySorted newer_first (recent_sales tickets).
Proof. apply StronglySorted_merge_sort; apply _. Qed.

Lemma recent_sales_elem tickets t :
  t ∈ recent_sales tickets ↔ t ∈ tickets ∧ Sold t = true.
Proof.
  rewrite recent_sales_Permutation, list_elem_of_filter.
  split; intros [? ?]; done.
Qed.

Lemma sales_history_Some tickets rows :
  sales_history tickets = Some rows →
  rows = imap (λ i t, mkSale (Z.of_nat i + 1) (TicketID t) (Category t)
                        (Customer t) (Timestamp t)) (recent_sales tickets).
Proof.
  unfold sales_history. destruct (recent_sales tickets); [done|]. by intros [= <-].
Qed.

Lemma alter_elem (f : Ticket → Ticket) idx tickets t x :
  tickets !! idx = Some t → x ∈ alter f idx tickets → x = f t ∨ x ∈ tickets.
Proof.
  intros Ht [i Hi]%list_elem_of_lookup.
  destruct (decide (idx = i)) as [->|Hne].
  - rewrite list_lookup_alter_eq, Ht in Hi. left. by simplify_eq/=.
  - rewrite list_lookup_alter_ne in Hi by done. right.
    by eapply list_elem_of_lookup_2.
Qed.
End recent.

(** X21. The recent-sales table lists exactly the sold tickets, each once:
    it is replaced by the "No sales recorded yet" notice exactly when no
    ticket is sold; otherwise it has as many rows as there are sold tickets,
    the row at position i carries Sno i + 1 (so Sno runs from 1 to the
    number of rows) and the identifier, category, customer and timestamp of
    a sold ticket, and every sold ticket has its row. *)
Theorem sales_history_lists_the_sold (tickets : list Ticket) :
  recent_sales tickets ≡ₚ filter (λ t, Sold t = true) tickets ∧
  (sales_history tickets = None ↔ Forall (λ t, Sold t = false) tickets) ∧
  (∀ rows, sales_history tickets = Some rows →
     length rows = length (filter (λ t, Sold t = true) tickets) ∧
     (∀ i r, rows !! i = Some r →
        Sno r = Z.of_nat i + 1 ∧
        ∃ t, t ∈ tickets ∧ Sold t = true ∧
             r = mkSale (Z.of_nat i + 1) (TicketID t) (Category t)
                   (Customer t) (Timestamp t)) ∧
     (∀ t, t ∈ tickets → Sold t = true →
        ∃ i, rows !! i = Some (mkSale (Z.of_nat i + 1) (TicketID t)
                                 (Category t) (Customer t) (Timestamp t)))).
Proof.
  split_and!.
  - apply recent_sales_Permutation.
  - unfold sales_history. split.
    + destruct (recent_sales tickets) as [|a l] eqn:Hr; [|done]. intros _.
      apply Forall_forall. intros t Hin. destruct (Sold t) eqn:Hs; [|done].
      assert (t ∈ recent_sales tickets) as Ht by by apply recent_sales_elem.
      rewrite Hr in Ht. by apply elem_of_nil in Ht.
    + intros Hall. destruct (recent_sales tickets) as [|a l] eqn:Hr; [done|].
      assert (a ∈ recent_sales tickets) as [Hin Hs]%recent_sales_elem
        by (rewrite Hr; apply list_elem_of_here).
      rewrite Forall_forall in Hall. specialize (Hall a Hin). congruence.
  - intros rows ->%sales_history_Some. split_and!.
    + by rewrite length_imap, recent_sales_Permutation.
    + intros i r Hi. rewrite list_lookup_imap in Hi.
      destruct (recent_sales tickets !! i) as [t|] eqn:Ht; simplify_eq/=.
      split; [done|]. exists t.
      apply list_elem_of_lookup_2, recent_sales_elem in Ht as [? ?]. done.
    + intros t Hin Hs.
      assert (t ∈ recent_sales tickets) as [i Hi]%list_elem_of_lookup
        by by apply recent_sales_elem.
      exists i. by rewrite list_lookup_imap, Hi.
Qed.

Lemma sales_history_lists_the_sold_witness :
  sales_history scenario_inventory = None.
Proof.
  apply (sales_history_lists_the_sold scenario_inventory).
  repeat constructor.
Defined.

(** X22. The recent-sales table is ordered latest first: of two rows that
    both have a timestamp the upper one has the later or equal timestamp
    text, and a row without timestamp stands below every row that has
    one. *)
Theorem sales_history_latest_first (tickets : list Ticket) (rows : list SalesRow) :
  sales_history tickets = Some rows →
  ∀ i j upper lower,
    rows !! i = Some upper → rows !! j = Some lower → (i < j)%nat →
    match sale_Timestamp upper, sale_Timestamp lower with
    | Some x, Some y => String.le y x
    | None, Some _ => False
    | _, None => True
    end.
Proof.
  intros ->%sales_history_Some i j upper lower Hi Hj Hlt.
  rewrite list_lookup_imap in Hi, Hj.
  destruct (recent_sales tickets !! i) as [a|] eqn:Ha; simplify_eq/=.
  destruct (recent_sales tickets !! j) as [b|] eqn:Hb; simplify_eq/=.
  assert (newer_first a b) as Hab.
  { pose proof (recent_sales_sorted tickets) as Hs.
    revert Hs i j Ha Hb Hlt. generalize (recent_sales tickets).
    intros l Hs. induction Hs as [|x l Hs IH Hall]; intros i j Ha Hb Hlt; [done|].
    destruct i as [|i], j as [|j]; simpl in *; try lia.
    - injection Ha as ->. eapply Forall_forall; [exact Hall|].
      by eapply list_elem_of_lookup_2.
    - apply (IH i j); auto with lia. }
  unfold newer_first in Hab. by destruct (Timestamp a), (Timestamp b).
Qed.

Lemma sales_history_latest_first_witness :
  match
    sale_Timestamp (mkSale 1 "0002" (Some "GA") "Dan" (Some "2026-01-02 09:00:00")),
    sale_Timestamp (mkSale 2 "0001" (Some "GA") "Bob" (Some "2026-01-01 10:00:00"))
  with
  | Some x, Some y => String.le y x
  | None, Some _ => False
  | _, None => True
  end.
Proof.
  apply (sales_history_latest_first
           [sell_row "Bob" "2026-01-01 10:00:00" (unsold_ticket "0001" (Some 1));
            sell_row "Dan" "2026-01-02 09:00:00" (unsold_ticket "0002" (Some 1))]
           [mkSale 1 "0002" (Some "GA") "Dan" (Some "2026-01-02 09:00:00");
            mkSale 2 "0001" (Some "GA") "Bob" (Some "2026-01-01 10:00:00")]
           eq_refl 0%nat 1%nat); [reflexivity|reflexivity|lia].
Defined.

(** X23. A sale shows up on top: after a saved manual sale, identifiers
    being unique, whose timestamp text is later than the timestamp of every
    ticket sold before, the first row of the recent-sales table is the new
    sale, with Sno 1, the identifier sold, the category selected, the
    customer entered and the timestamp of the sale. *)
Theorem new_sale_on_top
    (tickets saved : list Ticket) (s_type : string) (s_cat : option string)
    (tid cust now : string) :
  I2 tickets →
  manual_sale tickets s_type s_cat tid cust now = Saved saved →
  (∀ t x, t ∈ tickets → Sold t = true → Timestamp t = Some x →
          String.le x now ∧ x ≠ now) →
  ∃ rest, sales_history saved
          = Some (mkSale 1 tid s_cat cust (Some now) :: rest).
Proof.
  intros Hu Hsale Hlater.
  destruct (saved_sale_ticket _ _ _ _ _ _ _ Hu Hsale)
    as (idx & t & Ht & <- & _ & <- & Hs & ->).
  set (saved := alter (sell_row cust now) idx tickets).
  assert (sell_row cust now t ∈ recent_sales saved) as Hnew.
  { apply recent_sales_elem. split; [|done].
    apply (list_elem_of_lookup_2 _ idx). unfold saved.
    by rewrite list_lookup_alter_eq, Ht. }
  pose proof (recent_sales_sorted saved) as Hsorted.
  assert (∀ x, x ∈ recent_sales saved → x ≠ sell_row cust now t →
               ¬ newer_first x (sell_row cust now t)) as Hold.
  { intros x [Hx Hxs]%recent_sales_elem Hne Hnf.
    destruct (alter_elem _ _ _ _ _ Ht Hx) as [->|Hin]; [done|].
    unfold newer_first in Hnf. simpl in Hnf.
    destruct (Timestamp x) as [y|] eqn:Hy; [|done].
    destruct (Hlater x y Hin Hxs Hy) as [Hle Hdiff].
    apply Hdiff. by apply (anti_symm String.le). }
  unfold sales_history.
  destruct (recent_sales saved) as [|h l] eqn:Hr; [by apply elem_of_nil in Hnew|].
  assert (h = sell_row cust now t) as ->.
  { destruct (decide (h = sell_row cust now t)) as [|Hne]; [done|]. exfalso.
    apply (Hold h); [apply list_elem_of_here|done|].
    apply StronglySorted_cons in Hsorted as [Hall _].
    rewrite Forall_forall in Hall. apply Hall.
    apply elem_of_cons in Hnew as [Heq|Hin]; [by symmetry in Heq|done]. }
  eexists. reflexivity.
Qed.

Lemma new_sale_on_top_witness :
  ∃ rest,
    sales_history
      (tickets_after
         [sell_row "Bob" "2026-01-01 10:00:00" (unsold_ticket "0001" (Some 1));
          unsold_ticket "0002" (Some 1)]
         (manual_sale
            [sell_row "Bob" "2026-01-01 10:00:00" (unsold_ticket "0001" (Some 1));
             unsold_ticket "0002" (Some 1)]
            "Public" (Some "GA") "0002" "Dan" "2026-01-02 09:00:00"))
    = Some (mkSale 1 "0002" (Some "GA") "Dan" (Some "2026-01-02 09:00:00")
              :: rest).
Proof.
  apply (new_sale_on_top
           [sell_row "Bob" "2026-01-01 10:00:00" (unsold_ticket "0001" (Some 1));
            unsold_ticket "0002" (Some 1)] _ "Public" (Some "GA") "0002" "Dan"
           "2026-01-02 09:00:00").
  - apply (bool_decide_unpack _). vm_compute. exact I.
  - reflexivity.
  - intros t x Hin Hs Hx.
    repeat (apply elem_of_cons in Hin as [->|Hin]; [simpl in Hs, Hx|]).
    + injection Hx as <-. split; [|discriminate].
      apply (bool_decide_unpack _). vm_compute. exact I.
    + discriminate.
    + by apply elem_of_nil in Hin.
Defined.

(** ** Sales one after the other *)

Section two_sales.
Implicit Types (t : Ticket) (tickets : list Ticket).

(** The position of an identifier depends on the identifier column only. *)
Lemma first_index_same_identifiers tickets tickets' tid :
  TicketID <$> tickets' = TicketID <$> tickets →
  first_index tickets' tid = first_index tickets tid.
Proof.
  intros Hids. unfold first_index.
  pose proof (list_find_fmap TicketID (λ id, id = tid) tickets) as H1.
  pose proof (list_find_fmap TicketID (λ id, id = tid) tickets') as H2.
  rewrite Hids, H1 in H2. clear H1.
  change ((λ id, id = tid) ∘ TicketID) with (λ t, TicketID t = tid) in H2.
  destruct (list_find (λ t, TicketID t = tid) tickets) as [[i x]|],
           (list_find (λ t, TicketID t = tid) tickets') as [[j y]|];
    simplify_eq/=; done.
Qed.

Lemma alter_alter_ne (f g : Ticket → Ticket) i j tickets :
  i ≠ j → alter f i (alter g j tickets) = alter g j (alter f i tickets).
Proof.
  intros Hne. apply list_eq. intros n.
  destruct (decide (i = n)) as [->|Hi], (decide (j = n)) as [->|Hj];
    try done;
    repeat first [rewrite list_lookup_alter_eq
                 |rewrite list_lookup_alter_ne by done]; done.
Qed.
End two_sales.

(** X25. Manual sales of two different tickets do not interfere: if each
    of the two sales is saved when made first, then each is also saved when
    made after the other, and both orders end in the same collection. *)
Theorem manual_sales_commute
    (tickets first second : list Ticket)
    (ty1 ty2 : string) (cat1 cat2 : option string)
    (tid1 tid2 cust1 cust2 now1 now2 : string) :
  tid1 ≠ tid2 →
  manual_sale tickets ty1 cat1 tid1 cust1 now1 = Saved first →
  manual_sale tickets ty2 cat2 tid2 cust2 now2 = Saved second →
  ∃ both,
    manual_sale first ty2 cat2 tid2 cust2 now2 = Saved both ∧
    manual_sale second ty1 cat1 tid1 cust1 now1 = Saved both.
Proof.
  intros Hne (Hin1 & i1 & Hi1 & ->)%manual_sale_Saved
             (Hin2 & i2 & Hi2 & ->)%manual_sale_Saved.
  destruct (first_index_Some _ _ _ Hi1) as (t1 & Ht1 & Hid1).
  destruct (first_index_Some _ _ _ Hi2) as (t2 & Ht2 & Hid2).
  assert (i1 ≠ i2) as Hi by (intros ->; congruence).
  exists (alter (sell_row cust2 now2) i2 (alter (sell_row cust1 now1) i1 tickets)).
  split.
  - rewrite manual_sale_cases, decide_True.
    + rewrite (first_index_same_identifiers tickets), Hi2; [done|].
      by apply alter_TicketID.
    + apply (avail_other _ _ _ t1); try done. congruence.
  - rewrite manual_sale_cases, decide_True.
    + rewrite (first_index_same_identifiers tickets), Hi1.
      * by rewrite alter_alter_ne.
      * by apply alter_TicketID.
    + apply (avail_other _ _ _ t2); try done. congruence.
Qed.

Lemma manual_sales_commute_witness :
  ∃ both,
    manual_sale
      (tickets_after scenario_inventory
         (manual_sale scenario_inventory "Public" (Some "GA") "0001" "Bob"
            "2026-01-01 10:00:00"))
      "Public" (Some "GA") "0002" "Dan" "2026-01-02 09:00:00" = Saved both ∧
    manual_sale
      (tickets_after scenario_inventory
         (manual_sale scenario_inventory "Public" (Some "GA") "0002" "Dan"
            "2026-01-02 09:00:00"))
      "Public" (Some "GA") "0001" "Bob" "2026-01-01 10:00:00" = Saved both.
Proof.
  apply (manual_sales_commute scenario_inventory _ _ "Public" "Public"
           (Some "GA") (Some "GA") "0001" "0002" "Bob" "Dan"
           "2026-01-01 10:00:00" "2026-01-02 09:00:00").
  - discriminate.
  - reflexivity.
  - reflexivity.
Defined.
